(** * Issue lifecycle of the compliance engine

    A shallow embedding of two entry points of the repository:

    - [ECS.lambda_handler], the ECS privileged-access identification
      lambda ([describe_ecs_privileged_access_issues.py]);
    - [IAM.clean_iam_access_keys], the stale access key remediation pass
      ([clean_iam_key_rotation.py]).

    External collaborators (scanner, DynamoDB driver, SNS, Jira, Slack, IAM)
    are oracles of an environment record: every call either succeeds or
    raises, as the environment says.  Side effects are kept in a
    chronological trace next to the issue table. *)

From stdpp Require Import gmap strings list fin_maps pretty.
From Stdlib Require Import ZArith Lia.

(** ** Issue status (library.ddb_issues.IssueStatus) *)

Inductive IssueStatus : Type :=
  | Open
  | Whitelisted
  | Notified
  | Remediated
  | Resolved.

#[global] Instance IssueStatus_eq_dec : EqDecision IssueStatus.
Proof. solve_decision. Defined.

(** The statuses under which the issue table still lists an issue as open. *)
Definition is_open_status (s : IssueStatus) : bool :=
  match s with
  | Open | Whitelisted | Notified => true
  | Remediated | Resolved => false
  end.

(** [list.pop()] of Python: removes and returns the last element, raises
    [IndexError] (here [None]) on the empty list. *)
Definition pop {A : Type} (l : list A) : option (A * list A) :=
  match rev l with
  | [] => None
  | x :: r => Some (x, rev r)
  end.

(** ** Runs: a state and exception monad

    A run threads a world (the issue table and the trace of the effects so
    far) and ends normally, by an exception, or by leaving the enclosing
    block early ([return] in the handler, [continue] in the scheduler). *)

Record World (T E : Type) : Type := mkWorld {
  store : T;
  trace : list E
}.
Arguments mkWorld {T E} store trace.
Arguments store {T E} w.
Arguments trace {T E} w.

Inductive Outcome (W A : Type) : Type :=
  | Done (a : A) (w : W)
  | Raised (w : W)      (* an exception is propagating *)
  | Returned (w : W).   (* the block was left early *)
Arguments Done {W A} a w.
Arguments Raised {W A} w.
Arguments Returned {W A} w.

Definition M (W A : Type) : Type := W → Outcome W A.

#[global] Instance M_ret {W : Type} : MRet (M W) := λ A a w, Done a w.

#[global] Instance M_bind {W : Type} : MBind (M W) := λ A B f m w,
  match m w with
  | Done a w' => f a w'
  | Raised w' => Raised w'
  | Returned w' => Returned w'
  end.

Definition raise {W A : Type} : M W A := λ w, Raised w.
Definition return_ {W A : Type} : M W A := λ w, Returned w.

Definition emit {T E : Type} (e : E) (w : World T E) : World T E :=
  mkWorld (store w) (trace w ++ [e]).

Definition tell {T E : Type} (e : E) : M (World T E) unit :=
  λ w, Done tt (emit e w).

Definition modify {T E : Type} (f : T → T) : M (World T E) unit :=
  λ w, Done tt (mkWorld (f (store w)) (trace w)).

Definition read {T E : Type} : M (World T E) T := λ w, Done (store w) w.

(** A call of a collaborator: returns when [ok], raises otherwise. *)
Definition call {W : Type} (ok : bool) : M W unit :=
  if ok then mret tt else raise.

Definition world_of {W A : Type} (o : Outcome W A) : W :=
  match o with
  | Done _ w | Raised w | Returned w => w
  end.

Module ECS.

(** *** Data *)

Record IssueDetails : Type := mkDetails {
  arn : string;
  tags : list (string * string);
  container_name : string;
  region : string
}.

Record Issue : Type := mkIssue {
  account_id : string;
  issue_id : string;
  status : IssueStatus;
  issue_details : IssueDetails
}.

(** A row of the issue table: the attributes stored under the key
    [(account_id, issue_id)]. *)
Record Row : Type := mkRow {
  row_status : IssueStatus;
  row_details : IssueDetails
}.

Abbreviation Table := (gmap (string * string) Row).

Definition issue_of_row (k : string * string) (r : Row) : Issue :=
  mkIssue k.1 k.2 (row_status r) (row_details r).

Definition key_of (i : Issue) : string * string := (account_id i, issue_id i).

(** Modelled from the spec: [IssueOperations.get_account_open_issues] of
    [library/ddb_issues.py], which is not part of the sources at hand.  The
    specification gives the reconciliation engine "the set of Issues
    currently Open/Whitelisted/Notified for an account". *)
Definition get_account_open_issues (t : Table) (account : string) : list Issue :=
  (λ kr, issue_of_row kr.1 kr.2) <$>
    filter (λ kr : (string * string) * Row,
              kr.1.1 = account ∧ is_open_status (row_status kr.2) = true)
           (map_to_list t).

(** The status an upsert leaves, from the stored status and the detected
    one: a detected [Open] does not regress [Notified] or [Remediated]. *)
Definition refresh_status (old new : IssueStatus) : IssueStatus :=
  match new with
  | Open =>
      match old with
      | Notified | Remediated => old
      | _ => Open
      end
  | _ => new
  end.

(** Modelled from the spec: [IssueOperations.update] of
    [library/ddb_issues.py], which is not part of the sources at hand.  The
    specification: "look up or create its Issue by issue_id.  Refresh
    issue_details.  If the Whitelist Filter reports exempt, set status
    Whitelisted; otherwise set status Open if not already further along
    (Notified/Remediated are not regressed back to Open by this step)". *)
Definition upsert_row (stored : option Row) (i : Issue) : Row :=
  match stored with
  | None => mkRow (status i) (issue_details i)
  | Some old =>
      mkRow (refresh_status (row_status old) (status i)) (issue_details i)
  end.

Definition update (t : Table) (i : Issue) : Table :=
  <[key_of i := upsert_row (t !! key_of i) i]> t.

(** Modelled from the spec: [IssueOperations.set_status_resolved] of
    [library/ddb_issues.py], which is not part of the sources at hand.  The
    specification: "status set to Resolved", everything else of the record
    "left untouched". *)
Definition resolved_row (r : Row) : Row := mkRow Resolved (row_details r).

Definition set_status_resolved (t : Table) (i : Issue) : Table :=
  alter resolved_row (key_of i) t.

(** A task definition as the scanner ([ECSChecker]) reports it;
    [td_region] is [task_definition.account.region]. *)
Record TaskDefinition : Type := mkTD {
  name : string;
  td_arn : string;
  td_tags : list (string * string);
  td_container_name : string;
  is_privileged : bool;
  td_region : string
}.

(** The SNS message body after [json.loads]; a field is [None] when the key
    is absent from the object. *)
Record Payload : Type := mkPayload {
  p_account_id : option string;
  p_account_name : option string;
  p_regions : option (list string);
  p_sns_arn : option string
}.

(** [event["Records"][0]["Sns"]["Message"]] parsed as JSON; [None] when a
    subscript fails or the message is not JSON. *)
Definition Event : Type := option Payload.

(** *** Effects *)

Inductive LogMsg : Type :=
  | FailedToParse
  | FailedToCheck (account_id account_name : string)
  | FailedToChain.

Inductive Effect : Type :=
  | LogException (m : LogMsg)
  | ReadIssues (account_id : string)
  | Scan (account_id region : string)
  | WriteIssue (account_id issue_id : string) (s : IssueStatus)
  | ResolveIssue (account_id issue_id : string)
  | Publish (topic : string) (p : Payload).

Abbreviation State := (World Table Effect).

(** How far the opening of the account session gets. *)
Inductive Setup : Type :=
  | SetupRaises      (* Config(), Account() or the table handle raises *)
  | SessionNone      (* account.session is None *)
  | SessionOk.

#[global] Instance Setup_eq_dec : EqDecision Setup.
Proof. solve_decision. Defined.

(** The collaborators of one invocation. *)
Record Env : Type := mkEnv {
  env_setup : Setup;
  env_read_ok : bool;                         (* get_account_open_issues returns *)
  env_check : option bool;                    (* checker.check(); None: raises *)
  env_task_definitions : list TaskDefinition; (* checker.task_definitions *)
  env_in_whitelist : string → string → bool;  (* config...in_whitelist *)
  env_write_ok : string → bool;               (* a table write for this id returns *)
  env_publish_ok : bool                       (* Sns.publish returns *)
}.

(** *** The handler *)

(** Lines 18-22: the parse step.  The popped region and the payload as
    [pop] leaves it. *)
Definition parse_event (event : Event)
  : option (string * string * string * Payload) :=
  payload ← event;
  account_id ← p_account_id payload;
  account_name ← p_account_name payload;
  regions ← p_regions payload;
  '(region, rest) ← pop regions;
  Some (account_id, account_name, region,
        mkPayload (p_account_id payload) (p_account_name payload)
                  (Some rest) (p_sns_arn payload)).

(** Lines 44-47: the open issues of the account, as a dictionary by issue
    id, restricted to the region being scanned. *)
Definition open_issues_of (issues : list Issue) (region_ : string)
  : gmap string Issue :=
  foldl (λ d i, <[issue_id i := i]> d) ∅
        (filter (λ i, region (issue_details i) = region_) issues).

(** Lines 55-63: the issue built for a privileged task definition. *)
Definition detected_issue (env : Env) (account : string) (td : TaskDefinition)
  : Issue :=
  mkIssue account (name td)
          (if env_in_whitelist env account (name td) then Whitelisted else Open)
          (mkDetails (td_arn td) (td_tags td) (td_container_name td) (td_region td)).

(** Lines 52-68: the loop over the task definitions. *)
Fixpoint refresh_issues (env : Env) (account : string)
    (tds : list TaskDefinition) (open_issues : gmap string Issue)
  : M State (gmap string Issue) :=
  match tds with
  | [] => mret open_issues
  | td :: tds' =>
      if is_privileged td then
        let issue := detected_issue env account td in
        (call (env_write_ok env (name td));;
         modify (λ t, update t issue);;
         tell (WriteIssue account (name td) (status issue));;
         refresh_issues env account tds' (delete (name td) open_issues))
      else refresh_issues env account tds' open_issues
  end.

(** Lines 72-73: every issue left in the dictionary is resolved.  The
    issues come in the order of the dictionary; the order decides only
    which writes precede a write that raises. *)
Fixpoint resolve_issues (env : Env) (issues : list Issue) : M State unit :=
  match issues with
  | [] => mret tt
  | i :: issues' =>
      call (env_write_ok env (issue_id i));;
      modify (λ t, set_status_resolved t i);;
      tell (ResolveIssue (account_id i) (issue_id i));;
      resolve_issues env issues'
  end.

(** Lines 29-73: the body of the second [try]. *)
Definition scan_region (env : Env) (account region_ : string) : M State unit :=
  match env_setup env with
  | SetupRaises => raise
  | SessionNone => return_
  | SessionOk =>
      call (env_read_ok env);;
      tell (ReadIssues account);;
      t ← read;
      let open_issues := open_issues_of (get_account_open_issues t account) region_ in
      tell (Scan account region_);;
      match env_check env with
      | None => raise
      | Some checked =>
          open_issues ←
            (if checked
             then refresh_issues env account (env_task_definitions env) open_issues
             else mret open_issues);
          resolve_issues env (map_to_list open_issues).*2
      end
  end.

(** Lines 79-83: the continuation. *)
Definition chain (env : Env) (payload : Payload) : M State unit :=
  match p_regions payload with
  | Some (_ :: _) =>
      match p_sns_arn payload with
      | Some topic =>
          if env_publish_ok env then tell (Publish topic payload)
          else tell (LogException FailedToChain)
      | None => tell (LogException FailedToChain)
      end
  | _ => mret tt
  end.

Definition lambda_handler (env : Env) (event : Event) (t : Table) : State :=
  let w := mkWorld t [] in
  match parse_event event with
  | None => emit (LogException FailedToParse) w
  | Some (account, account_name, region_, payload) =>
      match scan_region env account region_ w with
      | Raised w' => emit (LogException (FailedToCheck account account_name)) w'
      | Returned w' => w'
      | Done _ w' => world_of (chain env payload w')
      end
  end.

(** *** Derived notions used to state the properties *)

(** The last issue of a list written under a key. *)
Definition final_issue (l : list Issue) (k : string * string) : option Issue :=
  last (filter (λ i, key_of i = k) l).

Definition same_status_per_key (l : list Issue) : Prop :=
  ∀ i j, i ∈ l → j ∈ l → key_of i = key_of j → status i = status j.

Definition write_effect (env : Env) (account : string) (td : TaskDefinition) : Effect :=
  WriteIssue account (name td) (status (detected_issue env account td)).

Definition resolve_effect (i : Issue) : Effect :=
  ResolveIssue (account_id i) (issue_id i).

Definition popped (tds : list TaskDefinition) (d : gmap string Issue) : gmap string Issue :=
  foldl (λ d td, delete (name td) d) d tds.

Definition findings (tds : list TaskDefinition) : list TaskDefinition :=
  filter (λ td, is_privileged td = true) tds.

Definition scanned_findings (env : Env) : list TaskDefinition :=
  match env_check env with
  | Some true => findings (env_task_definitions env)
  | _ => []
  end.

Definition refreshed (env : Env) (account : string) (t : Table) : Table :=
  foldl update t (detected_issue env account <$> scanned_findings env).

Definition retired (env : Env) (account X : string) (t : Table) : list Issue :=
  (map_to_list (popped (scanned_findings env)
                       (open_issues_of (get_account_open_issues t account) X))).*2.

Definition reconciled (env : Env) (account X : string) (t : Table) : Table :=
  foldl set_status_resolved (refreshed env account t) (retired env account X t).

(** No collaborator of the scan step fails. *)
Definition scan_succeeds (env : Env) : Prop :=
  env_setup env = SessionOk ∧ env_read_ok env = true ∧
  is_Some (env_check env) ∧ ∀ id, env_write_ok env id = true.


(** *** The continuation chain *)

(** The messages an invocation published, and the regions it scanned. *)
Definition published (tr : list Effect) : list (string * Payload) :=
  omap (λ e, match e with Publish topic p => Some (topic, p) | _ => None end) tr.

Definition scanned_regions (tr : list Effect) : list string :=
  omap (λ e, match e with Scan _ r => Some r | _ => None end) tr.

(** The transport delivers every published message to a new invocation;
    [envs] gives the collaborators of the successive invocations. *)
Fixpoint run_chain (envs : list Env) (event : Event) (t : Table) : State :=
  match envs with
  | [] => mkWorld t []
  | env :: envs' =>
      let w := lambda_handler env event t in
      match published (trace w) with
      | [] => w
      | (_, payload) :: _ =>
          let w' := run_chain envs' (Some payload) (store w) in
          mkWorld (store w') (trace w ++ trace w')
      end
  end.

(** No collaborator of the invocation fails. *)
Definition invocation_succeeds (env : Env) : Prop :=
  scan_succeeds env ∧ env_publish_ok env = true.

(** *** A scenario: the account session cannot be opened *)

Definition no_session_env : Env :=
  mkEnv SessionNone true (Some true) [] (λ _ _, false) (λ _, true) true.

Definition two_regions_payload : Payload :=
  mkPayload (Some "111111111111") (Some "prod")
            (Some ["eu-west-1"; "us-east-1"]) (Some "arn:aws:sns:topic").

Definition two_regions_event : Event := Some two_regions_payload.

(** *** A scenario: the same task definition name in two regions *)

Definition web_row : Row :=
  mkRow Open (mkDetails "arn:aws:ecs:eu-west-1:1:task-definition/web:3" []
                        "nginx" "eu-west-1").

Definition web_table : Table := {[ ("111111111111", "web") := web_row ]}.

Definition web_event : Event :=
  Some (mkPayload (Some "111111111111") (Some "prod") (Some ["us-east-1"])
                  (Some "arn:aws:sns:topic")).

Definition web_finding : TaskDefinition :=
  mkTD "web" "arn:aws:ecs:us-east-1:1:task-definition/web:7" [] "nginx" true
       "us-east-1".

Definition web_env : Env :=
  mkEnv SessionOk true (Some true) [web_finding] (λ _ _, false) (λ _, true) true.

(** The same scan with "web" on the whitelist, and one whose [check()]
    returns false. *)
Definition exempt_env : Env :=
  mkEnv SessionOk true (Some true) (env_task_definitions web_env)
        (λ _ id, String.eqb id "web") (λ _, true) true.

Definition unchecked_env : Env :=
  mkEnv SessionOk true (Some false) (env_task_definitions web_env)
        (λ _ _, false) (λ _, true) true.

(** *** A scenario: issues of us-east-1 in several states *)

Definition notified_row : Row :=
  mkRow Notified (mkDetails "arn:aws:ecs:us-east-1:1:task-definition/web:6" []
                            "nginx" "us-east-1").

Definition api_row : Row :=
  mkRow Open (mkDetails "arn:aws:ecs:us-east-1:1:task-definition/api:2" []
                        "app" "us-east-1").

Definition batch_row : Row :=
  mkRow Open (mkDetails "arn:aws:ecs:eu-west-1:1:task-definition/batch:1" []
                        "worker" "eu-west-1").

Definition tracked_table : Table :=
  {[ ("111111111111", "web") := notified_row;
     ("111111111111", "api") := api_row;
     ("111111111111", "batch") := batch_row ]}.

Definition web_rest : Payload :=
  mkPayload (Some "111111111111") (Some "prod") (Some [])
            (Some "arn:aws:sns:topic").

(** A table in which "web" is recorded in eu-west-1; "api" and "batch" as
    in [tracked_table]. *)
Definition shared_name_table : Table :=
  {[ ("111111111111", "web") := web_row;
     ("111111111111", "api") := api_row;
     ("111111111111", "batch") := batch_row ]}.

(** The environment restricted to what the refresh loop looks at: the
    privileged task definitions. *)
Definition only_findings (env : Env) : Env :=
  mkEnv (env_setup env) (env_read_ok env) (env_check env)
        (findings (env_task_definitions env))
        (env_in_whitelist env) (env_write_ok env) (env_publish_ok env).

(** *** More scenarios *)

(** A message without the account id. *)
Definition keyless_payload : Payload :=
  mkPayload None (Some "prod") (Some ["us-east-1"]) (Some "arn:aws:sns:topic").

(** The configuration cannot be loaded. *)
Definition raising_env : Env :=
  mkEnv SetupRaises true (Some true) [web_finding] (λ _ _, false) (λ _, true) true.

Definition api_finding : TaskDefinition :=
  mkTD "api" "arn:aws:ecs:us-east-1:1:task-definition/api:3" [] "app" true
       "us-east-1".

(** The table refuses the write of "api". *)
Definition refusing_env : Env :=
  mkEnv SessionOk true (Some true) [web_finding; api_finding] (λ _ _, false)
        (λ id, negb (String.eqb id "api")) true.

(** The topic cannot be published to. *)
Definition mute_env : Env :=
  mkEnv SessionOk true (Some true) [web_finding] (λ _ _, false) (λ _, true) false.

Definition one_region_left : Payload :=
  mkPayload (Some "111111111111") (Some "prod") (Some ["eu-west-1"])
            (Some "arn:aws:sns:topic").

End ECS.

Module IAM.

Local Open Scope Z_scope.

(** *** Data *)

Record Timestamps : Type := mkTimestamps {
  reported : option string;
  remediated : option string;
  slack_notified_date : string;
  updated : Z                 (* seconds; read through [timestamp_as_datetime] *)
}.

Record Issue : Type := mkIssue {
  account_id : string;
  issue_id : string;                (* the access key id *)
  status : IssueStatus;
  username : string;                (* issue_details.username *)
  timestamps : Timestamps;
  ticket : option string            (* jira_details.ticket *)
}.

Definition timestamp_as_datetime (i : Issue) : Z := updated (timestamps i).

(** A row of the issue table, stored under [(account_id, issue_id)]. *)
Record Row : Type := mkRow {
  row_status : IssueStatus;
  row_username : string;
  row_timestamps : Timestamps;
  row_ticket : option string
}.

Abbreviation Table := (gmap (string * string) Row).

Definition issue_of_row (k : string * string) (r : Row) : Issue :=
  mkIssue k.1 k.2 (row_status r) (row_username r) (row_timestamps r) (row_ticket r).

Definition key_of (i : Issue) : string * string := (account_id i, issue_id i).

(** Modelled from the spec: [IssueOperations.get_account_open_issues] of
    [library/ddb_issues.py], which is not part of the sources at hand; the
    same function as in the identification lambda. *)
Definition get_account_open_issues (t : Table) (account : string) : list Issue :=
  (λ kr, issue_of_row kr.1 kr.2) <$>
    filter (λ kr : (string * string) * Row,
              kr.1.1 = account ∧ is_open_status (row_status kr.2) = true)
           (map_to_list t).

(** Modelled from the spec: [IssueOperations.set_status_notified] of
    [library/ddb_issues.py], which is not part of the sources at hand.  The
    specification: "record the new notification timestamp; status
    becomes/remains Notified". *)
Definition notified_row (stamp : string) (r : Row) : Row :=
  mkRow Notified (row_username r)
        (mkTimestamps (reported (row_timestamps r)) (remediated (row_timestamps r))
                      stamp (updated (row_timestamps r)))
        (row_ticket r).

Definition set_status_notified (stamp : string) (t : Table) (i : Issue) : Table :=
  alter (notified_row stamp) (key_of i) t.

(** Modelled from the spec: [IssueOperations.set_status_remediated] of
    [library/ddb_issues.py], which is not part of the sources at hand.  The
    specification: "set status Remediated", with the nullable [remediated]
    timestamp of the data model. *)
Definition remediated_row (stamp : string) (r : Row) : Row :=
  mkRow Remediated (row_username r)
        (mkTimestamps (reported (row_timestamps r)) (Some stamp)
                      (slack_notified_date (row_timestamps r))
                      (updated (row_timestamps r)))
        (row_ticket r).

Definition set_status_remediated (stamp : string) (t : Table) (i : Issue) : Table :=
  alter (remediated_row stamp) (key_of i) t.

(** The configuration the pass reads. *)
Record Config : Type := mkConfig {
  remediation_retention_period : Z;
  remediation_warning_days : list Z;
  remediation_accounts : list (string * string);   (* id, name; in order *)
  now : Z;                                         (* seconds *)
  in_whitelist : string → string → bool
}.

(** [timedelta.days]: whole days, rounded down. *)
Definition days (seconds : Z) : Z := seconds / 86400.

(** *** Effects *)

Inductive SkipReason : Type :=
  | InWhitelist
  | NotReported
  | AlreadyRemediated
  | Countdown (days_left : Z).

Inductive LogMsg : Type :=
  | FailedToDisable
  | ErrorWhileDisabling (key_id username account_name account_id : string)
  | FailedToClean.

Inductive Effect : Type :=
  | Skipping (key_id username : string) (why : SkipReason)
  | SlackReport (msg account_id : string)
  | JiraUpdate (ticket : option string) (comment : string)
  | JiraRemediate (ticket : option string) (comment : string) (reassign : bool)
  | Confirm (prompt : string)
  | DisableKey (username key_id : string)
  | SetNotified (account_id key_id : string)
  | SetRemediated (account_id key_id : string)
  | LogException (m : LogMsg).

Abbreviation State := (World Table Effect).

Inductive Session : Type :=
  | AccountRaises
  | NoSession
  | HasSession.

(** The collaborators of one pass. *)
Record Env : Type := mkEnv {
  env_setup_ok : bool;                       (* table handle, Jira and Slack clients *)
  env_read_ok : string → bool;               (* get_account_open_issues, per account *)
  env_parse_date : string → option Z;        (* dateutil.parser.parse; None: raises *)
  env_format_date : Z → string;              (* the stamp the table stores *)
  env_slack_ok : string → string → bool;     (* slack.report_issue *)
  env_jira_update_ok : option string → string → bool;
  env_jira_remediate_ok : option string → string → bool → bool;
  env_ticket_url : string → string;          (* jira.ticket_url *)
  env_confirm : string → bool;               (* the answer to the prompt *)
  env_session : string → Session;            (* Account(...).session *)
  env_disable_ok : string → string → bool;   (* IAMOperations.disable_access_key *)
  env_write_ok : string → bool               (* a table write for this key id *)
}.

(** *** Messages *)

Definition warning_comment (key_id : string) (days_left : Z) : string :=
  "Stale access key '" +:+ key_id +:+ "' issue is going to be remediated in "
    +:+ pretty days_left +:+ " days".

Definition remediated_comment (key_id username account_name account_id : string)
  : string :=
  "Stale access key '" +:+ key_id +:+ " / " +:+ username +:+ "' issue "
    +:+ "in '" +:+ account_name +:+ " / " +:+ account_id +:+ "' account "
    +:+ "was remediated by hammer".

Definition failed_comment (key_id username account_name account_id : string)
  : string :=
  "Failed to remediate stale access key '" +:+ key_id +:+ " / " +:+ username
    +:+ "' issue "
    +:+ "in '" +:+ account_name +:+ " / " +:+ account_id +:+ "' account "
    +:+ "due to some limitations. Please, check manually".

Definition confirm_prompt (key_id username : string) : string :=
  "Do you want to remediate stale access key '" +:+ key_id +:+ " / "
    +:+ username +:+ "'".

(** Truthiness of [issue.jira_details.ticket]. *)
Definition truthy (ticket : option string) : option string :=
  match ticket with
  | Some EmptyString | None => None
  | Some tk => Some tk
  end.

Definition slack_message (env : Env) (comment : string) (ticket : option string)
  : string :=
  comment +:+ match truthy ticket with
              | Some tk => " (" +:+ env_ticket_url env tk +:+ ")"
              | None => ""
              end.

(** *** The pass *)

Section Pass.

Context (env : Env) (config : Config) (batch : bool).

Definition stamp : string := env_format_date env (now config).

(** Lines 68-80: the warning. *)
Definition notify (account : string) (issue : Issue) (days_left : Z)
  : M State unit :=
  let comment := warning_comment (issue_id issue) days_left in
  call (env_slack_ok env comment account);;
  tell (SlackReport comment account);;
  call (env_jira_update_ok env (ticket issue) comment);;
  tell (JiraUpdate (ticket issue) comment);;
  call (env_write_ok env (issue_id issue));;
  modify (λ t, set_status_notified stamp t issue);;
  tell (SetNotified account (issue_id issue)).

(** Lines 84-118: the body of the [try]; [Returned] is [continue]. *)
Definition remediate (account account_name : string) (issue : Issue)
  : M State unit :=
  let key_id := issue_id issue in
  let user := username issue in
  (if batch then mret tt
   else tell (Confirm (confirm_prompt key_id user));;
        if env_confirm env (confirm_prompt key_id user) then mret tt else return_);;
  match env_session env account with
  | AccountRaises => raise
  | NoSession => return_
  | HasSession =>
      let remediation_succeed := env_disable_ok env user key_id in
      let comment :=
        if remediation_succeed
        then remediated_comment key_id user account_name account
        else failed_comment key_id user account_name account in
      (if remediation_succeed then tell (DisableKey user key_id)
       else tell (LogException FailedToDisable));;
      call (env_jira_remediate_ok env (ticket issue) comment remediation_succeed);;
      tell (JiraRemediate (ticket issue) comment remediation_succeed);;
      call (env_slack_ok env (slack_message env comment (ticket issue)) account);;
      tell (SlackReport (slack_message env comment (ticket issue)) account);;
      call (env_write_ok env key_id);;
      modify (λ t, set_status_remediated stamp t issue);;
      tell (SetRemediated account key_id)
  end.

(** Lines 83-121: the [try] with its handler. *)
Definition try_remediate (account account_name : string) (issue : Issue)
  : M State unit :=
  λ w, match remediate account account_name issue w with
       | Done _ w' | Returned w' => Done tt w'
       | Raised w' =>
           Done tt (emit (LogException
                            (ErrorWhileDisabling (issue_id issue) (username issue)
                                                 account_name account)) w')
       end.

(** Lines 41-124: one issue. *)
Definition process_issue (account account_name : string) (issue : Issue)
  : M State unit :=
  let key_id := issue_id issue in
  let user := username issue in
  let retention_period := remediation_retention_period config in
  if in_whitelist config account user || in_whitelist config account key_id
  then tell (Skipping key_id user InWhitelist)
  else if decide (reported (timestamps issue) = None)
  then tell (Skipping key_id user NotReported)
  else if decide (remediated (timestamps issue) = None) then
    let no_of_days_issue_created := days (now config - timestamp_as_datetime issue) in
    let issue_remediation_days := retention_period - no_of_days_issue_created in
    match env_parse_date env (slack_notified_date (timestamps issue)) with
    | None => raise
    | Some notified =>
        if bool_decide (issue_remediation_days ∈ remediation_warning_days config)
           && bool_decide (days (now config - notified) > 0)
        then notify account issue issue_remediation_days
        else if bool_decide (no_of_days_issue_created >= retention_period)
        then try_remediate account account_name issue
        else tell (Skipping key_id user
                            (Countdown (retention_period - no_of_days_issue_created)))
    end
  else tell (Skipping key_id user AlreadyRemediated).

(** Lines 40-124: the issues of one account. *)
Fixpoint process_issues (account account_name : string) (issues : list Issue)
  : M State unit :=
  match issues with
  | [] => mret tt
  | issue :: issues' =>
      process_issue account account_name issue;;
      process_issues account account_name issues'
  end.

(** Lines 37-124: the accounts. *)
Fixpoint process_accounts (accounts : list (string * string)) : M State unit :=
  match accounts with
  | [] => mret tt
  | (account, account_name) :: accounts' =>
      call (env_read_ok env account);;
      t ← read;
      process_issues account account_name (get_account_open_issues t account);;
      process_accounts accounts'
  end.

(** Lines 26-124. *)
Definition clean_iam_access_keys : M State unit :=
  call (env_setup_ok env);;
  process_accounts (remediation_accounts config).

(** Lines 145-149: the script catches what the pass lets through. *)
Definition main (t : Table) : State :=
  match clean_iam_access_keys (mkWorld t []) with
  | Done _ w | Returned w => w
  | Raised w => emit (LogException FailedToClean) w
  end.

End Pass.

(** The effects of the remediation branch. *)
Definition is_remediation_effect (e : Effect) : bool :=
  match e with
  | Confirm _ | DisableKey _ _ | JiraRemediate _ _ _ | SetRemediated _ _
  | LogException _ => true
  | _ => false
  end.

(** *** Scenarios *)

Definition day : Z := 86400.

(** Retention of ten days, warnings seven, three, one and zero days ahead;
    the pass runs on day twenty. *)
Definition sample_config : Config :=
  mkConfig 10 [7; 3; 1; 0]
           [("111111111111", "prod"); ("222222222222", "dev")]
           (20 * day) (λ _ _, false).

(** Collaborators that all answer, with the given Slack and IAM clients. *)
Definition sample_env (slack_ok : string → string → bool)
    (disable_ok : string → string → bool) : Env :=
  mkEnv true (λ _, true) (λ _, Some (18 * day)) (λ _, "2026-01-21T00:00:00")
        slack_ok (λ _ _, true) (λ _ _ _, true)
        (λ tk, "https://jira.example.com/browse/" +:+ tk)
        (λ _, true) (λ _, HasSession) disable_ok (λ _, true).

(** A key detected fifteen days ago: five days past the retention. *)
Definition overdue_row : Row :=
  mkRow Notified "alice"
        (mkTimestamps (Some "2026-01-06T00:00:00") None "2026-01-19T00:00:00"
                      (5 * day))
        (Some "SEC-1").

Definition overdue_table : Table := {[ ("111111111111", "AKIAOLD") := overdue_row ]}.

(** A key detected ten days ago: its retention ends today. *)
Definition due_today_row : Row :=
  mkRow Notified "carol"
        (mkTimestamps (Some "2026-01-11T00:00:00") None "2026-01-19T00:00:00"
                      (10 * day))
        (Some "SEC-3").

Definition due_today_table : Table :=
  {[ ("111111111111", "AKIADUE") := due_today_row ]}.

(** A key three days before the end of its retention, in the first
    account, and an overdue key in the second. *)
Definition warned_row : Row :=
  mkRow Open "bob"
        (mkTimestamps (Some "2026-01-14T00:00:00") None "2026-01-19T00:00:00"
                      (13 * day))
        (Some "SEC-2").

Definition two_accounts_table : Table :=
  {[ ("111111111111", "AKIAWARN") := warned_row;
     ("222222222222", "AKIAOLD") := overdue_row ]}.

Definition two_overdue_table : Table :=
  {[ ("111111111111", "AKIAOLD") := overdue_row;
     ("222222222222", "AKIAOLD") := overdue_row ]}.

(** The session of the first account cannot be opened: [Account] raises. *)
Definition prod_session_raises : Env :=
  mkEnv true (λ _, true) (λ _, Some (18 * day)) (λ _, "2026-01-21T00:00:00")
        (λ _ _, true) (λ _ _, true) (λ _ _ _, true)
        (λ tk, "https://jira.example.com/browse/" +:+ tk)
        (λ _, true)
        (λ account, if String.eqb account "111111111111"
                    then AccountRaises else HasSession)
        (λ _ _, true) (λ _, true).

(** Slack refuses the messages of the first account. *)
Definition slack_down_for_prod (msg account : string) : bool :=
  negb (String.eqb account "111111111111").

Definition overdue_issue : Issue :=
  issue_of_row ("111111111111", "AKIAOLD") overdue_row.

(** A key detected eleven days ago: one day of retention is left. *)
Definition day_before_issue : Issue :=
  mkIssue "111111111111" "AKIANEW" Notified "dave"
          (mkTimestamps (Some "2026-01-10T00:00:00") None "2026-01-19T00:00:00"
                        (11 * day))
          (Some "SEC-4").

(** *** What a pass may do to the table *)

(** A row keeps its status or becomes Notified or Remediated. *)
Definition status_step (r r' : Row) : Prop :=
  row_status r' = row_status r ∨ row_status r' = Notified
  ∨ row_status r' = Remediated.

(** No row appears or disappears, and every row makes a [status_step]. *)
Definition table_step (t t' : Table) : Prop :=
  ∀ k, match t !! k with
       | None => t' !! k = None
       | Some r => ∃ r', t' !! k = Some r' ∧ status_step r r'
       end.

(** The exclusions of lines 47-57. *)
Definition excluded (config : Config) (account : string) (issue : Issue) : Prop :=
  in_whitelist config account (username issue) = true ∨
  in_whitelist config account (issue_id issue) = true ∨
  reported (timestamps issue) = None ∨
  remediated (timestamps issue) ≠ None.

Definition not_excluded (config : Config) (account : string) (issue : Issue)
  : Prop :=
  in_whitelist config account (username issue) = false ∧
  in_whitelist config account (issue_id issue) = false ∧
  reported (timestamps issue) ≠ None ∧
  remediated (timestamps issue) = None.

(** A row the pass has no business with: its account is not configured
    for remediation, or the table does not list it as open (this covers
    the keys without a row). *)
Definition out_of_reach (config : Config) (t : Table) (k : string * string)
  : Prop :=
  k.1 ∉ (remediation_accounts config).*1 ∨
  ∀ r, t !! k = Some r → is_open_status (row_status r) = false.

(** *** More scenarios *)

(** Collaborators that answer as scripted: the parsed notification date,
    the answer to the prompt, the session, and whether the IAM call and
    the two ticket calls return. *)
Definition scripted_env (parse : option Z) (confirm : bool) (session : Session)
    (disable jira_update jira_remediate : bool) : Env :=
  mkEnv true (λ _, true) (λ _, parse) (λ _, "2026-01-21T00:00:00")
        (λ _ _, true) (λ _ _, jira_update) (λ _ _ _, jira_remediate)
        (λ tk, "https://jira.example.com/browse/" +:+ tk)
        (λ _, confirm) (λ _, session) (λ _ _, disable) (λ _, true).

(** A key that was never reported. *)
Definition unreported_issue : Issue :=
  mkIssue "111111111111" "AKIANOREP" Open "erin"
          (mkTimestamps None None "" (1 * day)) None.

(** A key detected four days ago: six days of retention are left. *)
Definition young_issue : Issue :=
  mkIssue "111111111111" "AKIAYOUNG" Open "frank"
          (mkTimestamps (Some "2026-01-17T00:00:00") None "2026-01-19T00:00:00"
                        (16 * day))
          (Some "SEC-5").

Definition warned_issue : Issue :=
  issue_of_row ("111111111111", "AKIAWARN") warned_row.

(** An overdue key, a remediated one, and a key of an account that is not
    configured for remediation. *)
Definition done_row : Row :=
  mkRow Remediated "grace"
        (mkTimestamps (Some "2026-01-02T00:00:00") (Some "2026-01-12T00:00:00")
                      "2026-01-11T00:00:00" (1 * day))
        (Some "SEC-6").

Definition mixed_table : Table :=
  {[ ("111111111111", "AKIAOLD") := overdue_row;
     ("111111111111", "AKIADONE") := done_row;
     ("333333333333", "AKIAOLD") := overdue_row ]}.

End IAM.

Lemma pop_nil {A : Type} : pop (@nil A) = None.
Proof. reflexivity. Qed.

Lemma pop_snoc {A : Type} (l : list A) (x : A) : pop (l ++ [x]) = Some (x, l).
Proof. unfold pop. rewrite rev_unit, rev_involutive. reflexivity. Qed.

Lemma pop_Some {A : Type} (l r : list A) (x : A) :
  pop l = Some (x, r) ↔ l = r ++ [x].
Proof.
  split.
  - unfold pop. destruct (rev l) as [|y ys] eqn:E; [discriminate|].
    intros [= -> <-]. rewrite <- (rev_involutive l), E. reflexivity.
  - intros ->. apply pop_snoc.
Qed.

(** Unfolds one step of a run. *)
Ltac run_step :=
  unfold mbind, M_bind, mret, M_ret, call, modify, tell, read, raise, return_,
    emit; simpl.

Module ECS_proofs.
Import ECS.

Lemma refresh_status_idem o n :
  refresh_status (refresh_status o n) n = refresh_status o n.
Proof. destruct o, n; reflexivity. Qed.

Lemma refresh_status_same n : refresh_status n n = n.
Proof. destruct n; reflexivity. Qed.

Lemma update_lookup (t : Table) i k :
  update t i !! k =
  if decide (key_of i = k) then Some (upsert_row (t !! k) i) else t !! k.
Proof.
  unfold update. case_decide as E.
  - subst k. apply lookup_insert_eq.
  - by apply lookup_insert_ne.
Qed.

Lemma set_status_resolved_lookup (t : Table) i k :
  set_status_resolved t i !! k =
  if decide (key_of i = k) then resolved_row <$> t !! k else t !! k.
Proof.
  unfold set_status_resolved. case_decide as E.
  - subst k. apply lookup_alter_eq.
  - by apply lookup_alter_ne.
Qed.

Lemma upsert_row_twice o i j :
  status i = status j →
  upsert_row (Some (upsert_row o i)) j = upsert_row o j.
Proof.
  intros E. destruct o as [old|]; simpl; f_equal; rewrite E.
  - apply refresh_status_idem.
  - apply refresh_status_same.
Qed.

Lemma foldl_update_lookup (l : list Issue) (t : Table) k :
  same_status_per_key l →
  foldl update t l !! k =
  match final_issue l k with
  | None => t !! k
  | Some i => Some (upsert_row (t !! k) i)
  end.
Proof.
  induction l as [|x l IH] using rev_ind; intros Hs; [done|].
  rewrite foldl_snoc, update_lookup. unfold final_issue in *.
  rewrite filter_app, last_app. 
  assert (Hl : same_status_per_key l).
  { intros i j Hi Hj. apply Hs; set_solver. }
  specialize (IH Hl).
  rewrite filter_cons, filter_nil. case_decide as E; simpl; [|done].
  rewrite IH. destruct (last _) as [j|] eqn:Ej; [|done].
  f_equal. apply upsert_row_twice.
  apply last_Some in Ej as [l' Ej].
  assert (j ∈ filter (λ i, key_of i = k) l) as [Hk Hj]%list_elem_of_filter
    by (rewrite Ej; set_solver).
  apply Hs; [set_solver|set_solver|congruence].
Qed.

Lemma foldl_resolved_lookup (l : list Issue) (t : Table) k :
  foldl set_status_resolved t l !! k =
  if decide (k ∈ key_of <$> l) then resolved_row <$> t !! k else t !! k.
Proof.
  induction l as [|x l IH] using rev_ind.
  - case_decide as H; [by apply elem_of_nil in H|done].
  - rewrite foldl_snoc, set_status_resolved_lookup, IH, fmap_app. simpl.
    destruct (decide (k ∈ key_of <$> l)) as [Hl|Hl].
    + rewrite (decide_True (P := k ∈ _ ++ _)) by (apply elem_of_app; by left).
      case_decide; [|done]. by destruct (t !! k).
    + destruct (decide (key_of x = k)) as [E|E].
      * rewrite decide_True; [done|]. apply elem_of_app. right. subst k. apply list_elem_of_singleton. done.
      * rewrite decide_False; [done|]. intros [H|H%list_elem_of_singleton]%elem_of_app; congruence.
Qed.

(** *** Runs of the two loops *)

Lemma resolve_issues_shape env l w :
  ∃ l', l' `prefix_of` l ∧
    store (world_of (resolve_issues env l w)) = foldl set_status_resolved (store w) l' ∧
    trace (world_of (resolve_issues env l w)) = trace w ++ (resolve_effect <$> l') ∧
    (Forall (λ i, env_write_ok env (issue_id i) = true) l → l' = l).
Proof.
  revert w. induction l as [|i l IH]; intros w.
  - exists []. simpl. rewrite app_nil_r. done.
  - simpl. run_step. destruct (env_write_ok env (issue_id i)) eqn:Ew; simpl.
    + destruct (IH (mkWorld (set_status_resolved (store w) i)
                            (trace w ++ [ResolveIssue (account_id i) (issue_id i)])))
        as (l' & Hp & Hs & Ht & Hall).
      exists (i :: l'). split; [by apply prefix_cons|].
      split; [exact Hs|]. split.
      * rewrite Ht. simpl. by rewrite <- app_assoc.
      * intros Hf. apply Forall_cons in Hf as [_ Hf]. by rewrite Hall.
    + exists []. split; [apply prefix_nil|]. simpl. rewrite app_nil_r.
      repeat split; try done. intros Hf. apply Forall_cons in Hf as [Hf _]. congruence.
Qed.

Lemma resolve_issues_outcome env l w :
  match resolve_issues env l w with
  | Done _ _ => Forall (λ i, env_write_ok env (issue_id i) = true) l
  | Raised _ => ¬ Forall (λ i, env_write_ok env (issue_id i) = true) l
  | Returned _ => False
  end.
Proof.
  revert w. induction l as [|i l IH]; intros w; simpl; [by run_step|].
  run_step. destruct (env_write_ok env (issue_id i)) eqn:Ew; simpl.
  - specialize (IH (mkWorld (set_status_resolved (store w) i)
                            (trace w ++ [ResolveIssue (account_id i) (issue_id i)]))).
    destruct (resolve_issues env l _); [|..|done].
    + by constructor.
    + intros Hf. apply Forall_cons in Hf as [_ Hf]. done.
  - intros Hf. apply Forall_cons in Hf as [Hf _]. congruence.
Qed.

Lemma findings_cons td tds :
  findings (td :: tds) = if is_privileged td then td :: findings tds else findings tds.
Proof.
  unfold findings. rewrite filter_cons.
  destruct (is_privileged td); [by rewrite decide_True|by rewrite decide_False].
Qed.

Lemma refresh_issues_shape env account tds d w :
  ∃ F, F `prefix_of` findings tds ∧
    store (world_of (refresh_issues env account tds d w)) =
      foldl update (store w) (detected_issue env account <$> F) ∧
    trace (world_of (refresh_issues env account tds d w)) =
      trace w ++ (write_effect env account <$> F) ∧
    match refresh_issues env account tds d w with
    | Done d' _ => F = findings tds ∧ d' = popped (findings tds) d
    | Raised _ => ¬ Forall (λ td, env_write_ok env (name td) = true) (findings tds)
    | Returned _ => False
    end.
Proof.
  revert d w. induction tds as [|td tds IH]; intros d w.
  - exists []. simpl. rewrite app_nil_r. done.
  - simpl refresh_issues. rewrite findings_cons.
    destruct (is_privileged td) eqn:Ep.
    + run_step. destruct (env_write_ok env (name td)) eqn:Ew; simpl.
      * destruct (IH (delete (name td) d)
                     (mkWorld (update (store w) (detected_issue env account td))
                              (trace w ++ [WriteIssue account (name td)
                                 (if env_in_whitelist env account (name td)
                                  then Whitelisted else Open)])))
          as (F & Hp & Hs & Ht & Ho).
        exists (td :: F). split; [by apply prefix_cons|].
        split; [exact Hs|]. split; [rewrite Ht; simpl; by rewrite <- app_assoc|].
        unfold write_effect in *. simpl in *.
        destruct (refresh_issues env account tds _ _); [|..|done].
        -- destruct Ho as [-> ->]. done.
        -- intros Hf. apply Forall_cons in Hf as [_ Hf]. done.
      * exists []. split; [apply prefix_nil|]. simpl. rewrite app_nil_r.
        repeat split; try done. intros Hf. apply Forall_cons in Hf as [Hf _]. congruence.
    + apply IH.
Qed.

(** *** The dictionary of open issues *)

Lemma foldl_by_id_lookup (l : list Issue) (d : gmap string Issue) id i :
  NoDup (issue_id <$> l) →
  foldl (λ d i, <[issue_id i := i]> d) d l !! id = Some i ↔
  (i ∈ l ∧ issue_id i = id) ∨ ((id ∉ issue_id <$> l) ∧ d !! id = Some i).
Proof.
  revert d. induction l as [|x l IH]; intros d Hnd.
  - simpl. split; [intros H; right; split; [apply not_elem_of_nil|done]|].
    intros [[H _]|[_ H]]; [by apply elem_of_nil in H|done].
  - rewrite fmap_cons in Hnd. apply NoDup_cons in Hnd as [Hx Hnd].
    simpl. rewrite (IH _ Hnd). rewrite lookup_insert. split.
    + intros [[Hi Hid]|[Hid Hd]].
      * left. split; [by apply elem_of_cons; right|done].
      * case_decide as E.
        -- left. injection Hd as ->. split; [apply list_elem_of_here|done].
        -- right. split; [|done].
           intros [?|?]%elem_of_cons; [congruence|done].
    + intros [[Hi Hid]|[Hid Hd]].
      * apply elem_of_cons in Hi as [->|Hi].
        -- right. split; [congruence|]. by rewrite decide_True.
        -- left. done.
      * right. apply not_elem_of_cons in Hid as [Hne Hid].
        split; [done|]. by rewrite decide_False.
Qed.

Lemma elem_of_get_account_open_issues (t : Table) account i :
  i ∈ get_account_open_issues t account ↔
  ∃ id r, t !! (account, id) = Some r ∧ is_open_status (row_status r) = true ∧
          i = issue_of_row (account, id) r.
Proof.
  unfold get_account_open_issues. rewrite list_elem_of_fmap. split.
  - intros ([[a id] r] & -> & [[Ha Ho] Hin%elem_of_map_to_list]%list_elem_of_filter).
    simpl in *. subst a. eauto.
  - intros (id & r & Ht & Ho & ->). exists ((account, id), r). split; [done|].
    apply list_elem_of_filter. split; [done|]. by apply elem_of_map_to_list.
Qed.

Lemma NoDup_get_account_open_issues (t : Table) account X :
  NoDup (issue_id <$>
           filter (λ i, region (issue_details i) = X) (get_account_open_issues t account)).
Proof.
  apply NoDup_fmap_2_strong.
  - intros i j [_ Hi%elem_of_get_account_open_issues]%list_elem_of_filter
               [_ Hj%elem_of_get_account_open_issues]%list_elem_of_filter E.
    destruct Hi as (id & r & Hr & _ & ->). destruct Hj as (id' & r' & Hr' & _ & ->).
    simpl in E. subst id'. congruence.
  - apply NoDup_filter. unfold get_account_open_issues.
    apply NoDup_fmap_2_strong.
    + intros [k r] [k' r'] [_ H%elem_of_map_to_list]%list_elem_of_filter
                           [_ H'%elem_of_map_to_list]%list_elem_of_filter E.
      simpl in *. injection E as E1 E2 E3 E4.
      assert (k = k') by (destruct k, k'; simpl in *; congruence). subst k'.
      destruct r, r'; simpl in *; congruence.
    + apply NoDup_filter, NoDup_map_to_list.
Qed.

Lemma open_issues_of_lookup (t : Table) account X id i :
  open_issues_of (get_account_open_issues t account) X !! id = Some i ↔
  ∃ r, t !! (account, id) = Some r ∧ is_open_status (row_status r) = true ∧
       region (row_details r) = X ∧ i = issue_of_row (account, id) r.
Proof.
  unfold open_issues_of.
  rewrite foldl_by_id_lookup by apply NoDup_get_account_open_issues.
  rewrite lookup_empty, list_elem_of_filter, elem_of_get_account_open_issues. split.
  - intros [[[Hr (id' & r & Ht & Ho & ->)] Hid]|[_ ?]]; [|done].
    simpl in *. subst id'. eauto.
  - intros (r & Ht & Ho & Hr & ->). left. simpl. eauto 10.
Qed.

Lemma popped_lookup tds (d : gmap string Issue) id :
  popped tds d !! id = if decide (id ∈ name <$> tds) then None else d !! id.
Proof.
  unfold popped. induction tds as [|td tds IH] using rev_ind.
  - case_decide as H; [by apply elem_of_nil in H|done].
  - rewrite foldl_snoc, lookup_delete, IH, fmap_app. simpl.
    destruct (decide (id ∈ name <$> tds)) as [Hl|Hl].
    + rewrite (decide_True (P := id ∈ _ ++ _)) by (apply elem_of_app; by left).
      by case_decide.
    + destruct (decide (name td = id)) as [E|E].
      * rewrite decide_True; [done|]. apply elem_of_app. right.
        subst id. by apply list_elem_of_singleton.
      * rewrite decide_False; [done|].
        intros [H|H%list_elem_of_singleton]%elem_of_app; congruence.
Qed.

(** *** The scan of one region *)

Lemma world_eta {T E : Type} (w : World T E) : mkWorld (store w) (trace w) = w.
Proof. by destruct w. Qed.

Lemma scan_region_shape env account X t :
  ∃ F R hdr,
    F `prefix_of` scanned_findings env ∧
    (R = [] ∨ (F = scanned_findings env ∧ R `prefix_of` retired env account X t)) ∧
    hdr `prefix_of` [ReadIssues account; Scan account X] ∧
    store (world_of (scan_region env account X (mkWorld t []))) =
      foldl set_status_resolved (foldl update t (detected_issue env account <$> F)) R ∧
    trace (world_of (scan_region env account X (mkWorld t []))) =
      hdr ++ (write_effect env account <$> F) ++ (resolve_effect <$> R).
Proof.
  assert (Hnil : ∀ o : Outcome State unit, world_of o = mkWorld t [] →
            ∃ F R hdr,
              F `prefix_of` scanned_findings env ∧
              (R = [] ∨ (F = scanned_findings env ∧ R `prefix_of` retired env account X t)) ∧
              hdr `prefix_of` [ReadIssues account; Scan account X] ∧
              store (world_of o) =
                foldl set_status_resolved (foldl update t (detected_issue env account <$> F)) R ∧
              trace (world_of o) =
                hdr ++ (write_effect env account <$> F) ++ (resolve_effect <$> R)).
  { intros o ->. exists [], [], []. repeat split; try apply prefix_nil. by left. }
  unfold scan_region, retired, scanned_findings.
  destruct (env_setup env); [by apply Hnil..|]. clear Hnil.
  run_step. destruct (env_read_ok env); simpl;
    [|exists [], [], []; repeat split; try apply prefix_nil; by left].
  destruct (env_check env) as [[|]|]; simpl.
  - set (d := open_issues_of _ _).
    set (w := mkWorld t _).
    destruct (refresh_issues_shape env account (env_task_definitions env) d w)
      as (F & Hp & Hs & Ht & Ho).
    destruct (refresh_issues env account (env_task_definitions env) d w)
      as [d' w'| w' | w'] eqn:Er; simpl in *; [|..|done].
    + destruct Ho as [-> ->].
      destruct (resolve_issues_shape env (map_to_list (popped (findings (env_task_definitions env)) d)).*2 w')
        as (R & HpR & HsR & HtR & _).
      exists (findings (env_task_definitions env)), R, [ReadIssues account; Scan account X].
      split; [done|]. split; [right; done|]. split; [done|].
      rewrite HsR, Hs, HtR, Ht. subst w. simpl. done.
    + exists F, [], [ReadIssues account; Scan account X].
      split; [done|]. split; [by left|]. split; [done|].
      rewrite Hs, Ht. subst w. simpl. by rewrite app_nil_r.
  - set (d := open_issues_of _ _).
    set (w := mkWorld t _).
    destruct (resolve_issues_shape env (map_to_list d).*2 w) as (R & HpR & HsR & HtR & _).
    exists [], R, [ReadIssues account; Scan account X].
    split; [done|]. split; [right; done|]. split; [done|]. rewrite HsR, HtR.
    subst w. simpl. done.
  - exists [], [], [ReadIssues account; Scan account X].
    repeat split; try done. by left.
Qed.

Lemma scan_region_clean env account X t :
  scan_succeeds env →
  scan_region env account X (mkWorld t []) =
  Done tt (mkWorld (reconciled env account X t)
                   ([ReadIssues account; Scan account X]
                      ++ (write_effect env account <$> scanned_findings env)
                      ++ (resolve_effect <$> retired env account X t))).
Proof.
  intros (Hsetup & Hread & [c Hcheck] & Hw).
  unfold scan_region, reconciled, refreshed, retired, scanned_findings.
  rewrite Hsetup, Hread, Hcheck. run_step.
  set (d := open_issues_of _ _).
  set (w := mkWorld t _).
  assert (Hres : ∀ l w, resolve_issues env l w =
            Done tt (mkWorld (foldl set_status_resolved (store w) l)
                             (trace w ++ (resolve_effect <$> l)))).
  { intros l w0.
    destruct (resolve_issues_shape env l w0) as (l' & _ & Hs & Ht & Hall).
    rewrite Hall in * by (apply Forall_forall; intros; apply Hw).
    pose proof (resolve_issues_outcome env l w0) as Ho.
    destruct (resolve_issues env l w0) as [[] w1|w1|w1]; simpl in *; [|..|done].
    - rewrite <- Hs, <- Ht, world_eta. done.
    - exfalso. apply Ho, Forall_forall. intros; apply Hw. }
  destruct c.
  - destruct (refresh_issues_shape env account (env_task_definitions env) d w)
      as (F & Hp & Hs & Ht & Ho).
    destruct (refresh_issues env account (env_task_definitions env) d w)
      as [d' w'| w' | w'] eqn:Er; simpl in *; [|..|done].
    + destruct Ho as [-> ->]. rewrite Hres, Hs, Ht. subst w. simpl. done.
    + exfalso. apply Ho, Forall_forall. intros; apply Hw.
  - rewrite Hres. subst w. simpl. done.
Qed.

Lemma elem_of_retired env account X t i :
  i ∈ retired env account X t ↔
  ∃ id r, i = issue_of_row (account, id) r ∧ t !! (account, id) = Some r ∧
          is_open_status (row_status r) = true ∧ region (row_details r) = X ∧
          id ∉ name <$> scanned_findings env.
Proof.
  unfold retired. rewrite list_elem_of_fmap. split.
  - intros ([id j] & -> & Hin%elem_of_map_to_list). simpl.
    rewrite popped_lookup in Hin. case_decide as Hid; [done|].
    apply open_issues_of_lookup in Hin as (r & Ht & Ho & Hr & ->). eauto 10.
  - intros (id & r & -> & Ht & Ho & Hr & Hid).
    exists (id, issue_of_row (account, id) r). split; [done|].
    apply elem_of_map_to_list. rewrite popped_lookup, decide_False by done.
    apply open_issues_of_lookup. eauto.
Qed.

Lemma same_status_detected env account F :
  same_status_per_key (detected_issue env account <$> F).
Proof.
  intros i j (td & -> & _)%list_elem_of_fmap (td' & -> & _)%list_elem_of_fmap E.
  unfold key_of in E. simpl in *. injection E as ->. done.
Qed.

Lemma final_issue_Some l k i :
  final_issue l k = Some i → i ∈ l ∧ key_of i = k.
Proof.
  unfold final_issue. intros [l' E]%last_Some.
  assert (i ∈ filter (λ i, key_of i = k) l) as [? ?]%list_elem_of_filter; [|done].
  rewrite E. apply elem_of_app. right. by apply list_elem_of_singleton.
Qed.

Lemma final_issue_None l k :
  final_issue l k = None ↔ k ∉ key_of <$> l.
Proof.
  unfold final_issue. rewrite last_None. split.
  - intros E (i & -> & Hi)%list_elem_of_fmap.
    by eapply (filter_nil_not_elem_of _ _ _ E).
  - intros Hk. destruct (filter _ l) as [|i l'] eqn:E; [done|].
    assert (i ∈ filter (λ i, key_of i = k) l) as [<- Hi]%list_elem_of_filter
      by (rewrite E; apply list_elem_of_here).
    exfalso. apply Hk, list_elem_of_fmap. eauto.
Qed.

Lemma handler_store env event t account n X p :
  parse_event event = Some (account, n, X, p) →
  store (lambda_handler env event t) =
  store (world_of (scan_region env account X (mkWorld t []))).
Proof.
  intros Hp. unfold lambda_handler. rewrite Hp.
  destruct (scan_region _ _ _ _) as [[] w|w|w]; simpl; try done.
  unfold chain. destruct (p_regions p) as [[|]|]; try done.
  destruct (p_sns_arn p); try done. by destruct (env_publish_ok env).
Qed.


Lemma handler_trace env event t account n X p :
  parse_event event = Some (account, n, X, p) →
  ∃ tail,
    trace (lambda_handler env event t) =
      trace (world_of (scan_region env account X (mkWorld t []))) ++ tail ∧
    (tail = [] ∨ tail = [LogException (FailedToCheck account n)] ∨
     tail = [LogException FailedToChain] ∨ ∃ topic, tail = [Publish topic p]).
Proof.
  intros Hp. unfold lambda_handler. rewrite Hp.
  destruct (scan_region _ _ _ _) as [[] w|w|w]; simpl.
  - unfold chain. destruct (p_regions p) as [[|]|]; simpl;
      try (exists []; rewrite app_nil_r; by auto).
    destruct (p_sns_arn p); simpl; [destruct (env_publish_ok env); simpl|]; eauto 10.
  - eauto 10.
  - exists []. rewrite app_nil_r. auto.
Qed.

(** The row a key holds after the refresh loop has written the issues of
    [F]: untouched, or upserted from the last finding of that key. *)
Lemma detected_lookup (env : Env) (account : string) (F : list TaskDefinition)
    (t : Table) (k : string * string) :
  foldl update t (detected_issue env account <$> F) !! k = t !! k ∧
    k ∉ (λ td, (account, name td)) <$> F
  ∨ ∃ td, td ∈ F ∧ k = (account, name td) ∧
      foldl update t (detected_issue env account <$> F) !! k =
        Some (upsert_row (t !! k) (detected_issue env account td)).
Proof.
  rewrite foldl_update_lookup by apply same_status_detected.
  destruct (final_issue _ k) as [i|] eqn:E.
  - right. apply final_issue_Some in E as [(td & -> & Htd)%list_elem_of_fmap <-].
    exists td. done.
  - left. split; [done|]. apply final_issue_None in E.
    intros (td & -> & Htd)%list_elem_of_fmap. apply E.
    apply list_elem_of_fmap. exists (detected_issue env account td).
    split; [done|]. apply list_elem_of_fmap. eauto.
Qed.

Lemma retired_key env account X t i :
  i ∈ retired env account X t →
  ∃ id r, key_of i = (account, id) ∧ t !! (account, id) = Some r ∧
          is_open_status (row_status r) = true ∧ region (row_details r) = X ∧
          id ∉ name <$> scanned_findings env.
Proof. intros (id & r & -> & ?)%elem_of_retired. exists id, r. done. Qed.


(** *** Properties of the reconciliation *)

(** A key whose stored region is not the scanned one, or whose id was
    detected by a completed refresh loop, is not among the retired issues. *)
Lemma not_retired_prefix (env : Env) (account X : string) (t : Table) (F : list TaskDefinition)
    (R : list Issue) (k : string * string) :
  R = [] ∨ (F = scanned_findings env ∧ R `prefix_of` retired env account X t) →
  k ∈ key_of <$> R →
  ∃ id r, k = (account, id) ∧ t !! k = Some r ∧
          is_open_status (row_status r) = true ∧ region (row_details r) = X ∧
          id ∉ name <$> F.
Proof.
  intros [->|[-> [R' HR]]] (i & -> & Hi)%list_elem_of_fmap.
  - by apply elem_of_nil in Hi.
  - assert (Hin : i ∈ retired env account X t).
    { rewrite HR. apply elem_of_app. by left. }
    apply retired_key in Hin as (id & r & -> & ?). exists id, r. done.
Qed.

(** C1: during reconciliation an issue stored as Notified or Remediated,
    whose resource is not whitelisted, is never put back to Open; when the
    scan detects the resource again the stored status is kept as it is. *)
Theorem refresh_keeps_notified_and_remediated
    (env : Env) (event : Event) (t : Table) (account n X : string) (p : Payload)
    (id : string) (row : Row) :
  parse_event event = Some (account, n, X, p) →
  t !! (account, id) = Some row →
  row_status row = Notified ∨ row_status row = Remediated →
  env_in_whitelist env account id = false →
  row_status <$> store (lambda_handler env event t) !! (account, id) ≠ Some Open ∧
  (id ∈ name <$> scanned_findings env →
   row_status <$> store (lambda_handler env event t) !! (account, id)
     = Some (row_status row)).
Proof.
  intros Hp Hrow Hst Hwl. rewrite (handler_store _ _ _ _ _ _ _ Hp).
  destruct (scan_region_shape env account X t) as (F & R & hdr & HF & HR & _ & -> & _).
  rewrite foldl_resolved_lookup.
  assert (Hkept : row_status <$>
            foldl update t (detected_issue env account <$> F) !! (account, id)
            = Some (row_status row)).
  { destruct (detected_lookup env account F t (account, id))
      as [[-> _]|(td & Htd & Hk & ->)].
    - by rewrite Hrow.
    - injection Hk as Hk. rewrite Hrow. simpl. f_equal.
      rewrite <- Hk, Hwl. by destruct Hst as [-> | ->]. }
  split.
  - case_decide.
    + destruct (foldl update _ _ !! _); simpl in *; [done|done].
    + rewrite Hkept. destruct Hst as [-> | ->]; done.
  - intros Hid. rewrite decide_False; [done|].
    intros Hk. destruct (not_retired_prefix _ _ _ _ _ _ _ HR Hk)
      as (id' & r & [= <-] & _ & _ & _ & Hnot).
    destruct HR as [->|[-> _]]; [by apply elem_of_nil in Hk|]. done.
Qed.

(** C6: a detected resource that the whitelist reports exempt is stored as
    Whitelisted, whatever its previous status, and no write of the run
    carries another status for it. *)
Theorem whitelisted_finding_is_whitelisted
    (env : Env) (event : Event) (t : Table) (account n X : string) (p : Payload)
    (td : TaskDefinition) :
  parse_event event = Some (account, n, X, p) →
  env_in_whitelist env account (name td) = true →
  (scan_succeeds env → td ∈ scanned_findings env →
   row_status <$> store (lambda_handler env event t) !! (account, name td)
     = Some Whitelisted) ∧
  (∀ s, WriteIssue account (name td) s ∈ trace (lambda_handler env event t) →
        s = Whitelisted).
Proof.
  intros Hp Hwl. split.
  - intros Hok Htd. rewrite (handler_store _ _ _ _ _ _ _ Hp).
    rewrite (scan_region_clean _ _ _ _ Hok). simpl. unfold reconciled, refreshed.
    rewrite foldl_resolved_lookup. rewrite decide_False.
    + destruct (detected_lookup env account (scanned_findings env) t (account, name td))
        as [[_ Hk]|(td' & Htd' & Hk & ->)].
      * exfalso. apply Hk, list_elem_of_fmap. eauto.
      * injection Hk as Hk. simpl. f_equal. unfold upsert_row.
        destruct (t !! _); simpl; rewrite <- Hk, Hwl; done.
    + intros (i & Hk & Hi)%list_elem_of_fmap.
      apply retired_key in Hi as (id' & r & Hk' & _ & _ & _ & Hnot).
      rewrite Hk' in Hk. injection Hk as Hk. subst id'.
      apply Hnot, list_elem_of_fmap. eauto.
  - intros s Hin. destruct (handler_trace env event t _ _ _ _ Hp) as (tail & Ht & Htail).
    rewrite Ht in Hin.
    destruct (scan_region_shape env account X t) as (F & R & hdr & _ & _ & Hh & _ & Htr).
    rewrite Htr in Hin.
    apply elem_of_app in Hin as [Hin|Hin].
    + apply elem_of_app in Hin as [Hin|Hin].
      * destruct Hh as [rest Hh]. assert (Hin' : WriteIssue account (name td) s ∈
            [ReadIssues account; Scan account X]).
        { rewrite Hh. apply elem_of_app. by left. }
        apply elem_of_cons in Hin' as [?|Hin']; [done|].
        apply elem_of_cons in Hin' as [?|Hin']; [done|]. by apply elem_of_nil in Hin'.
      * apply elem_of_app in Hin as [Hin|Hin].
        -- apply list_elem_of_fmap in Hin as (td' & E & _). unfold write_effect in E.
           injection E as E Es. subst s. simpl. rewrite <- E, Hwl. done.
        -- apply list_elem_of_fmap in Hin as (i & E & _). done.
    + destruct Htail as [->|[->|[->|[topic ->]]]];
        [by apply elem_of_nil in Hin|apply list_elem_of_singleton in Hin; done..].
Qed.


(** The table a clean scan leaves, key by key. *)
Lemma reconciled_lookup (env : Env) (account X : string) (t : Table)
    (k : string * string) :
  reconciled env account X t !! k =
  match final_issue (detected_issue env account <$> scanned_findings env) k with
  | Some i => Some (upsert_row (t !! k) i)
  | None =>
      if decide (k ∈ key_of <$> retired env account X t)
      then resolved_row <$> t !! k else t !! k
  end.
Proof.
  unfold reconciled, refreshed.
  rewrite foldl_resolved_lookup, foldl_update_lookup by apply same_status_detected.
  destruct (final_issue _ k) as [i|] eqn:E; [|done].
  rewrite decide_False; [done|].
  intros (j & Hk & Hj)%list_elem_of_fmap.
  apply retired_key in Hj as (id & r & Hk' & _ & _ & _ & Hnot).
  apply final_issue_Some in E as [(td & -> & Htd)%list_elem_of_fmap E].
  rewrite <- E in Hk. rewrite Hk' in Hk. injection Hk as Hk.
  apply Hnot, list_elem_of_fmap. eauto.
Qed.

Lemma retired_key_iff (env : Env) (account X : string) (t : Table)
    (k : string * string) :
  k ∈ key_of <$> retired env account X t ↔
  ∃ id r, k = (account, id) ∧ t !! k = Some r ∧
          is_open_status (row_status r) = true ∧ region (row_details r) = X ∧
          id ∉ name <$> scanned_findings env.
Proof.
  split.
  - intros (i & -> & Hi)%list_elem_of_fmap.
    apply retired_key in Hi as (id & r & -> & ?). eauto.
  - intros (id & r & -> & Ht & Ho & Hr & Hid). apply list_elem_of_fmap.
    exists (issue_of_row (account, id) r). split; [done|].
    apply elem_of_retired. eauto 10.
Qed.

Lemma final_issue_id_not_found (env : Env) (account id : string) :
  id ∉ name <$> scanned_findings env →
  final_issue (detected_issue env account <$> scanned_findings env) (account, id) = None.
Proof.
  intros Hid. apply final_issue_None.
  intros (i & Hk & (td & -> & Htd)%list_elem_of_fmap)%list_elem_of_fmap.
  injection Hk as ->. apply Hid, list_elem_of_fmap. eauto.
Qed.

(** A second clean scan retires nothing. *)
Lemma retired_twice (env : Env) (account X : string) (t : Table) :
  retired env account X (reconciled env account X t) = [].
Proof.
  destruct (retired _ _ _ (reconciled _ _ _ _)) as [|i l] eqn:E; [done|].
  exfalso.
  assert (Hi : i ∈ retired env account X (reconciled env account X t))
    by (rewrite E; apply list_elem_of_here).
  apply retired_key in Hi as (id & r & _ & Hr & Ho & HX & Hid).
  rewrite reconciled_lookup, (final_issue_id_not_found _ _ _ Hid) in Hr.
  case_decide as Hk.
  - destruct (t !! (account, id)) as [r0|]; [|done].
    injection Hr as <-. done.
  - apply Hk, retired_key_iff. eauto 10.
Qed.

Lemma reconciled_idempotent (env : Env) (account X : string) (t : Table) :
  reconciled env account X (reconciled env account X t) = reconciled env account X t.
Proof.
  apply map_eq. intros k.
  rewrite (reconciled_lookup env account X (reconciled env account X t)).
  rewrite retired_twice.
  rewrite (reconciled_lookup env account X t).
  destruct (final_issue _ k) as [i|] eqn:E.
  - f_equal. by apply upsert_row_twice.
  - rewrite decide_False; [done|]. apply not_elem_of_nil.
Qed.

(** Outside the clean case the scan leaves the table as it found it, as
    long as no write is refused. *)
Lemma scan_region_store (env : Env) (account X : string) (t : Table) :
  (∀ id, env_write_ok env id = true) →
  store (world_of (scan_region env account X (mkWorld t []))) =
  if decide (env_setup env = SessionOk ∧ env_read_ok env = true ∧
             is_Some (env_check env))
  then reconciled env account X t else t.
Proof.
  intros Hw. case_decide as H.
  - destruct H as (H1 & H2 & H3).
    rewrite scan_region_clean; [done|]. by repeat split.
  - unfold scan_region. destruct (env_setup env) eqn:E1; try done.
    unfold mbind, M_bind, call, raise, mret, M_ret, tell, read, emit; simpl.
    destruct (env_read_ok env) eqn:E2; simpl; try done.
    destruct (env_check env) eqn:E3; simpl; try done.
    exfalso. apply H. repeat split; eauto.
Qed.

(** C8: reconciling a second time with the same findings, on the table the
    first run left, changes no row: every issue keeps the status of the
    first run and nothing more is resolved. *)
Theorem reconciliation_is_idempotent
    (env : Env) (event : Event) (t : Table) :
  (∀ id, env_write_ok env id = true) →
  store (lambda_handler env event (store (lambda_handler env event t)))
  = store (lambda_handler env event t).
Proof.
  intros Hw. destruct (parse_event event) as [[[[account n] X] p]|] eqn:Hp.
  - rewrite !(handler_store _ _ _ _ _ _ _ Hp).
    rewrite !scan_region_store by done.
    case_decide; [apply reconciled_idempotent|done].
  - unfold lambda_handler. rewrite Hp. done.
Qed.


Lemma handler_clean_trace (env : Env) (event : Event) (t : Table)
    (account n X : string) (p : Payload) :
  parse_event event = Some (account, n, X, p) →
  scan_succeeds env →
  trace (lambda_handler env event t) =
    [ReadIssues account; Scan account X]
      ++ (write_effect env account <$> scanned_findings env)
      ++ (resolve_effect <$> retired env account X t)
      ++ trace (world_of (chain env p (mkWorld t []))).
Proof.
  intros Hp Hok. unfold lambda_handler. rewrite Hp, (scan_region_clean _ _ _ _ Hok).
  unfold chain. destruct (p_regions p) as [[|]|]; simpl;
    try (by rewrite !app_nil_r).
  destruct (p_sns_arn p); [destruct (env_publish_ok env)|]; simpl;
    by rewrite <- !app_assoc.
Qed.

(** C9: when the session is established and [check()] returns false, no
    issue is written by the refresh loop, every open, whitelisted or
    notified issue recorded in the scanned region is resolved, and every
    other row is left as it was. *)
Theorem failed_check_resolves_region
    (env : Env) (event : Event) (t : Table) (account n X : string) (p : Payload) :
  parse_event event = Some (account, n, X, p) →
  env_setup env = SessionOk →
  env_read_ok env = true →
  env_check env = Some false →
  (∀ id, env_write_ok env id = true) →
  (∀ a id s, WriteIssue a id s ∉ trace (lambda_handler env event t)) ∧
  (∀ id r, t !! (account, id) = Some r →
           is_open_status (row_status r) = true →
           region (row_details r) = X →
           store (lambda_handler env event t) !! (account, id) = Some (resolved_row r)) ∧
  (∀ k, (∀ r, t !! k = Some r →
              ¬ (k.1 = account ∧ is_open_status (row_status r) = true ∧
                 region (row_details r) = X)) →
        store (lambda_handler env event t) !! k = t !! k).
Proof.
  intros Hp Hs Hr Hc Hw.
  assert (Hok : scan_succeeds env) by (repeat split; try done; rewrite Hc; eauto).
  assert (HF : scanned_findings env = []) by (unfold scanned_findings; by rewrite Hc).
  split; [|split].
  - intros a id s. rewrite (handler_clean_trace _ _ _ _ _ _ _ Hp Hok), HF. simpl.
    intros [?|[?|Hin]%elem_of_cons]%elem_of_cons; [done|done|].
    apply elem_of_app in Hin as [(i & ? & _)%list_elem_of_fmap|Hin]; [done|].
    unfold chain in Hin. destruct (p_regions p) as [[|]|]; simpl in Hin;
      try by apply elem_of_nil in Hin.
    destruct (p_sns_arn p); [destruct (env_publish_ok env)|]; simpl in Hin;
      apply list_elem_of_singleton in Hin; done.
  - intros id r Ht Ho HX. rewrite (handler_store _ _ _ _ _ _ _ Hp).
    rewrite (scan_region_clean _ _ _ _ Hok). simpl.
    rewrite reconciled_lookup, HF. simpl.
    rewrite decide_True; [by rewrite Ht|].
    apply retired_key_iff. exists id, r. rewrite HF. repeat split; try done.
    apply not_elem_of_nil.
  - intros k Hk. rewrite (handler_store _ _ _ _ _ _ _ Hp).
    rewrite (scan_region_clean _ _ _ _ Hok). simpl.
    rewrite reconciled_lookup, HF. simpl.
    rewrite decide_False; [done|].
    intros (id & r & -> & Ht & Ho & HX & _)%retired_key_iff.
    by apply (Hk r).
Qed.

(** C4 (as the code has it): an Open issue recorded in the scanned region
    and absent from the findings is resolved by a scan that runs to its
    end; an issue recorded in another region is never resolved by the scan,
    and is left untouched unless the scan detects a resource of the same
    account with the same issue id: then the record is either still as it
    was (the scan stopped before that write) or refreshed, its details and
    recorded region being those of the finding, and a scan that runs to its
    end always refreshes it. *)
Theorem resolution_follows_recorded_region
    (env : Env) (event : Event) (t : Table) (account n X : string) (p : Payload) :
  parse_event event = Some (account, n, X, p) →
  (scan_succeeds env →
   ∀ id r, t !! (account, id) = Some r →
           row_status r = Open →
           region (row_details r) = X →
           id ∉ name <$> scanned_findings env →
           store (lambda_handler env event t) !! (account, id) = Some (resolved_row r)) ∧
  (∀ k r, t !! k = Some r →
          region (row_details r) ≠ X →
          (row_status <$> store (lambda_handler env event t) !! k = Some Resolved →
           row_status r = Resolved) ∧
          (k ∉ (λ td, (account, name td)) <$> scanned_findings env →
           store (lambda_handler env event t) !! k = Some r) ∧
          (store (lambda_handler env event t) !! k = Some r ∨
           ∃ td, td ∈ scanned_findings env ∧ k = (account, name td) ∧
             store (lambda_handler env event t) !! k =
               Some (mkRow (refresh_status (row_status r)
                              (if env_in_whitelist env account (name td)
                               then Whitelisted else Open))
                           (mkDetails (td_arn td) (td_tags td)
                                      (td_container_name td) (td_region td)))) ∧
          (scan_succeeds env →
           k ∈ (λ td, (account, name td)) <$> scanned_findings env →
           ∃ td, td ∈ scanned_findings env ∧ k = (account, name td) ∧
             store (lambda_handler env event t) !! k =
               Some (mkRow (refresh_status (row_status r)
                              (if env_in_whitelist env account (name td)
                               then Whitelisted else Open))
                           (mkDetails (td_arn td) (td_tags td)
                                      (td_container_name td) (td_region td))))).
Proof.
  intros Hp. split.
  - intros Hok id r Ht Ho HX Hid. rewrite (handler_store _ _ _ _ _ _ _ Hp).
    rewrite (scan_region_clean _ _ _ _ Hok). simpl.
    rewrite reconciled_lookup, (final_issue_id_not_found _ _ _ Hid).
    rewrite decide_True; [by rewrite Ht|].
    apply retired_key_iff. exists id, r. rewrite Ho. done.
  - intros k r Ht HX. rewrite (handler_store _ _ _ _ _ _ _ Hp).
    split; [|split; [|split]].
    + destruct (scan_region_shape env account X t) as (F & R & hdr & HF & HR & _ & -> & _).
      rewrite foldl_resolved_lookup. rewrite decide_False.
      * destruct (detected_lookup env account F t k) as [[-> _]|(td & Htd & -> & ->)].
        -- rewrite Ht. by intros [= ->].
        -- rewrite Ht. simpl. destruct (env_in_whitelist _ _ _); [done|].
           destruct (row_status r); done.
      * intros Hk. destruct (not_retired_prefix _ _ _ _ _ _ _ HR Hk)
          as (id & r' & -> & Ht' & _ & HX' & _).
        rewrite Ht in Ht'. injection Ht' as <-. done.
    + destruct (scan_region_shape env account X t) as (F & R & hdr & HF & HR & _ & -> & _).
      rewrite foldl_resolved_lookup. rewrite decide_False.
      * destruct (detected_lookup env account F t k) as [[-> _]|(td & Htd & -> & ->)];
          [done|].
        intros Hk. exfalso. apply Hk, list_elem_of_fmap. exists td.
        split; [done|]. destruct HF as [F' ->]. apply elem_of_app. by left.
      * intros Hk. destruct (not_retired_prefix _ _ _ _ _ _ _ HR Hk)
          as (id & r' & -> & Ht' & _ & HX' & _).
        rewrite Ht in Ht'. injection Ht' as <-. done.
    + destruct (scan_region_shape env account X t) as (F & R & hdr & HF & HR & _ & -> & _).
      rewrite foldl_resolved_lookup. rewrite decide_False.
      * destruct (detected_lookup env account F t k) as [[-> _]|(td & Htd & -> & ->)];
          [by left|].
        right. exists td. split.
        { destruct HF as [F' ->]. apply elem_of_app. by left. }
        split; [done|]. by rewrite Ht.
      * intros Hk. destruct (not_retired_prefix _ _ _ _ _ _ _ HR Hk)
          as (id & r' & -> & Ht' & _ & HX' & _).
        rewrite Ht in Ht'. injection Ht' as <-. done.
    + intros Hok Hin. rewrite (scan_region_clean _ _ _ _ Hok). simpl.
      rewrite reconciled_lookup.
      destruct (final_issue _ k) as [i|] eqn:E.
      * apply final_issue_Some in E as [(td & -> & Htd)%list_elem_of_fmap <-].
        exists td. split; [done|]. split; [done|]. by rewrite Ht.
      * exfalso. apply final_issue_None in E. apply E.
        apply list_elem_of_fmap in Hin as (td & -> & Htd).
        apply list_elem_of_fmap. exists (detected_issue env account td).
        split; [done|]. apply list_elem_of_fmap. eauto.
Qed.

(** C4, as stated, fails: a scan of us-east-1 that finds a task definition
    named like an issue recorded in eu-west-1 rewrites that issue. *)
Lemma scan_rewrites_issue_of_other_region :
  parse_event web_event
    = Some ("111111111111", "prod", "us-east-1",
            mkPayload (Some "111111111111") (Some "prod") (Some [])
                      (Some "arn:aws:sns:topic")) ∧
  web_table !! ("111111111111", "web") = Some web_row ∧
  region (row_details web_row) = "eu-west-1" ∧
  region <$> (row_details <$>
    store (lambda_handler web_env web_event web_table) !! ("111111111111", "web"))
    = Some "us-east-1" ∧
  store (lambda_handler web_env web_event web_table) !! ("111111111111", "web")
    ≠ Some web_row.
Proof.
  assert (E : store (lambda_handler web_env web_event web_table)
                !! ("111111111111", "web")
              = Some (mkRow Open
                  (mkDetails "arn:aws:ecs:us-east-1:1:task-definition/web:7" []
                             "nginx" "us-east-1"))) by (vm_compute; reflexivity).
  rewrite E. repeat split; try (vm_compute; reflexivity). discriminate.
Qed.

(** C10: an event whose list of regions is empty is handled as a malformed
    one: the pop raises in the parse step, the failure is logged and the
    handler returns; the table is neither read nor written, nothing is
    scanned and nothing is published. *)
Theorem empty_regions_is_a_parse_failure
    (env : Env) (payload : Payload) (t : Table) :
  p_regions payload = Some [] →
  parse_event (Some payload) = None ∧
  lambda_handler env (Some payload) t = mkWorld t [LogException FailedToParse] ∧
  lambda_handler env (Some payload) t = lambda_handler env None t.
Proof.
  intros Hr.
  assert (Hp : parse_event (Some payload) = None).
  { unfold parse_event. simpl. destruct (p_account_id payload); [|done]. simpl.
    destruct (p_account_name payload); [|done]. simpl. rewrite Hr. done. }
  unfold lambda_handler. rewrite Hp. done.
Qed.


(** *** The continuation *)

Lemma parse_event_snoc (payload : Payload) (account n r : string)
    (regions : list string) :
  p_account_id payload = Some account →
  p_account_name payload = Some n →
  p_regions payload = Some (regions ++ [r]) →
  parse_event (Some payload) =
    Some (account, n, r,
          mkPayload (Some account) (Some n) (Some regions) (p_sns_arn payload)).
Proof.
  intros Ha Hn Hr. unfold parse_event. simpl.
  rewrite Ha, Hn, Hr. simpl. rewrite pop_snoc. done.
Qed.

Lemma scan_region_never_publishes (env : Env) (account X : string) (t : Table)
    (topic : string) (p : Payload) :
  Publish topic p ∉ trace (world_of (scan_region env account X (mkWorld t []))).
Proof.
  destruct (scan_region_shape env account X t) as (F & R & hdr & _ & _ & Hh & _ & ->).
  intros [Hin|Hin]%elem_of_app.
  - destruct Hh as [rest Hh].
    assert (Hin' : Publish topic p ∈ [ReadIssues account; Scan account X])
      by (rewrite Hh; apply elem_of_app; by left).
    apply elem_of_cons in Hin' as [?|Hin']; [done|].
    apply elem_of_cons in Hin' as [?|Hin']; [done|]. by apply elem_of_nil in Hin'.
  - apply elem_of_app in Hin as [(td & ? & _)%list_elem_of_fmap
                                |(i & ? & _)%list_elem_of_fmap]; done.
Qed.

Lemma omap_fmap_none {A B C : Type} (f : B → option C) (g : A → B) (l : list A) :
  (∀ x, f (g x) = None) → omap f (g <$> l) = [].
Proof. intros H. induction l as [|x l IH]; simpl; [done|]. by rewrite H. Qed.

Lemma handler_succeeds_published (env : Env) (payload : Payload) (t : Table)
    (account n r topic : string) (regions : list string) :
  p_account_id payload = Some account →
  p_account_name payload = Some n →
  p_regions payload = Some (regions ++ [r]) →
  p_sns_arn payload = Some topic →
  invocation_succeeds env →
  scanned_regions (trace (lambda_handler env (Some payload) t)) = [r] ∧
  published (trace (lambda_handler env (Some payload) t)) =
    match regions with
    | [] => []
    | _ :: _ => [(topic, mkPayload (Some account) (Some n) (Some regions) (Some topic))]
    end.
Proof.
  intros Ha Hn Hr Ht [Hok Hpub].
  pose proof (parse_event_snoc _ _ _ _ _ Ha Hn Hr) as Hp. rewrite Ht in Hp.
  rewrite (handler_clean_trace _ _ _ _ _ _ _ Hp Hok).
  unfold scanned_regions, published. simpl. rewrite !omap_app.
  rewrite !(omap_fmap_none _ (write_effect env account)) by done.
  rewrite !(omap_fmap_none _ resolve_effect) by done.
  unfold chain. simpl. rewrite Hpub. destruct regions; done.
Qed.

Lemma run_chain_scans (envs : list Env) (regions : list string) :
  ∀ (payload : Payload) (t : Table) (account n topic : string),
    p_account_id payload = Some account →
    p_account_name payload = Some n →
    p_regions payload = Some regions →
    p_sns_arn payload = Some topic →
    Forall invocation_succeeds envs →
    length regions ≤ length envs →
    regions ≠ [] →
    scanned_regions (trace (run_chain envs (Some payload) t)) = rev regions.
Proof.
  revert envs. induction regions as [|r regions IH] using rev_ind;
    intros envs payload t account n topic Ha Hn Hr Ht Hall Hlen Hne; [done|].
  destruct envs as [|env envs]; [rewrite length_app in Hlen; simpl in Hlen; lia|].
  apply Forall_cons in Hall as [Henv Hall].
  destruct (handler_succeeds_published env payload t account n r topic regions
              Ha Hn Hr Ht Henv) as [Hs Hpb].
  simpl. rewrite Hpb. rewrite rev_unit.
  destruct regions as [|r' regions'] eqn:E; [by rewrite Hs|]. rewrite <- E in *.
  simpl. unfold scanned_regions in *. rewrite omap_app, Hs. simpl. f_equal.
  apply (IH envs _ _ account n topic); try done.
  - rewrite length_app in Hlen. simpl in Hlen. lia.
  - by rewrite E.
Qed.

(** C5 (as the code has it): an invocation pops the last region of a
    non-empty sequence and scans that one; it republishes the payload,
    with the popped region removed, exactly when regions remain and the
    scan step ran to its end (session opened, no exception), the payload
    names its topic and the publish call returns; a chain of successful
    invocations scans every region once, last to first. *)
Theorem continuation_pops_last_region
    (env : Env) (payload : Payload) (t : Table)
    (account n r : string) (regions : list string) :
  p_account_id payload = Some account →
  p_account_name payload = Some n →
  p_regions payload = Some (regions ++ [r]) →
  let rest := mkPayload (Some account) (Some n) (Some regions) (p_sns_arn payload) in
  parse_event (Some payload) = Some (account, n, r, rest) ∧
  (∀ topic p',
     Publish topic p' ∈ trace (lambda_handler env (Some payload) t) ↔
     regions ≠ [] ∧ p' = rest ∧ p_sns_arn payload = Some topic ∧
     env_publish_ok env = true ∧
     ∃ w, scan_region env account r (mkWorld t []) = Done tt w) ∧
  (∀ envs topic,
     p_sns_arn payload = Some topic →
     Forall invocation_succeeds envs →
     length (regions ++ [r]) ≤ length envs →
     scanned_regions (trace (run_chain envs (Some payload) t)) = rev (regions ++ [r])).
Proof.
  intros Ha Hn Hr rest.
  pose proof (parse_event_snoc _ _ _ _ _ Ha Hn Hr) as Hp. fold rest in Hp.
  split; [done|]. split.
  - intros topic p'. unfold lambda_handler. rewrite Hp.
    pose proof (scan_region_never_publishes env account r t topic p') as Hnp.
    destruct (scan_region env account r (mkWorld t [])) as [[] w|w|w] eqn:Es;
      simpl in *.
    + unfold chain. simpl. destruct regions as [|r0 regions0] eqn:Eregs; simpl.
      * split; [done|]. intros [? _]. done.
      * destruct (p_sns_arn payload) as [topic'|] eqn:Et; simpl;
          [destruct (env_publish_ok env) eqn:Epub; simpl|].
        -- split.
           ++ intros [?|Hin%list_elem_of_singleton]%elem_of_app; [done|].
              injection Hin as -> ->. repeat split; eauto.
           ++ intros (_ & -> & [= ->] & _ & _). apply elem_of_app. right.
              by apply list_elem_of_singleton.
        -- split.
           ++ intros [?|Hin%list_elem_of_singleton]%elem_of_app; done.
           ++ intros (_ & _ & _ & ? & _). done.
        -- split.
           ++ intros [?|Hin%list_elem_of_singleton]%elem_of_app; done.
           ++ intros (_ & _ & ? & _). done.
    + split.
      * intros [?|Hin%list_elem_of_singleton]%elem_of_app; done.
      * intros (_ & _ & _ & _ & w' & ?). done.
    + split; [done|]. intros (_ & _ & _ & _ & w' & ?). done.
  - intros envs topic Ht Hall Hlen.
    apply (run_chain_scans envs (regions ++ [r]) payload t account n topic);
      try done. by destruct regions.
Qed.

(** C5, as stated, fails: with two regions pending and an account whose
    session cannot be opened, the invocation pops a region and returns
    without publishing, although one region remains. *)
Lemma no_session_no_republish :
  parse_event two_regions_event
    = Some ("111111111111", "prod", "us-east-1",
            mkPayload (Some "111111111111") (Some "prod") (Some ["eu-west-1"])
                      (Some "arn:aws:sns:topic")) ∧
  published (trace (lambda_handler no_session_env two_regions_event ∅)) = [] ∧
  scanned_regions (trace (lambda_handler no_session_env two_regions_event ∅)) = [].
Proof. repeat split; vm_compute; reflexivity. Qed.


(** *** The properties on the scenarios *)

Lemma web_parse :
  parse_event web_event = Some ("111111111111", "prod", "us-east-1", web_rest).
Proof. vm_compute. reflexivity. Defined.

Lemma web_env_succeeds : scan_succeeds web_env.
Proof. repeat split; try reflexivity. exists true. reflexivity. Defined.

Lemma web_findings : name <$> scanned_findings web_env = ["web"].
Proof. vm_compute. reflexivity. Defined.

Lemma refresh_keeps_notified_and_remediated_witness :
  parse_event web_event = Some ("111111111111", "prod", "us-east-1", web_rest) ∧
  tracked_table !! ("111111111111", "web") = Some notified_row ∧
  (row_status notified_row = Notified ∨ row_status notified_row = Remediated) ∧
  env_in_whitelist web_env "111111111111" "web" = false ∧
  row_status <$> store (lambda_handler web_env web_event tracked_table)
                   !! ("111111111111", "web") ≠ Some Open ∧
  row_status <$> store (lambda_handler web_env web_event tracked_table)
                   !! ("111111111111", "web") = Some Notified.
Proof.
  assert (H2 : tracked_table !! ("111111111111", "web") = Some notified_row)
    by (vm_compute; reflexivity).
  assert (H3 : row_status notified_row = Notified ∨ row_status notified_row = Remediated)
    by (left; reflexivity).
  assert (H4 : env_in_whitelist web_env "111111111111" "web" = false)
    by reflexivity.
  assert (Hin : "web" ∈ name <$> scanned_findings web_env)
    by (rewrite web_findings; apply list_elem_of_here).
  destruct (refresh_keeps_notified_and_remediated web_env web_event tracked_table
              "111111111111" "prod" "us-east-1" web_rest "web" notified_row
              web_parse H2 H3 H4) as [Ha Hb].
  exact (conj web_parse (conj H2 (conj H3 (conj H4 (conj Ha (Hb Hin)))))).
Defined.

Lemma whitelisted_finding_is_whitelisted_witness :
  parse_event web_event = Some ("111111111111", "prod", "us-east-1", web_rest) ∧
  env_in_whitelist exempt_env "111111111111" (name web_finding) = true ∧
  row_status <$> web_table !! ("111111111111", "web") = Some Open ∧
  row_status <$> store (lambda_handler exempt_env web_event web_table)
                   !! ("111111111111", "web") = Some Whitelisted ∧
  (∀ s, WriteIssue "111111111111" "web" s
          ∈ trace (lambda_handler exempt_env web_event web_table) →
        s = Whitelisted).
Proof.
  assert (H2 : env_in_whitelist exempt_env "111111111111" (name web_finding) = true)
    by reflexivity.
  assert (H3 : row_status <$> web_table !! ("111111111111", "web") = Some Open)
    by (vm_compute; reflexivity).
  assert (Hok : scan_succeeds exempt_env)
    by (repeat split; try reflexivity; exists true; reflexivity).
  assert (Hin : web_finding ∈ scanned_findings exempt_env)
    by (vm_compute; apply list_elem_of_here).
  destruct (whitelisted_finding_is_whitelisted exempt_env web_event web_table
              "111111111111" "prod" "us-east-1" web_rest web_finding web_parse H2)
    as [Ha Hb].
  exact (conj web_parse (conj H2 (conj H3 (conj (Ha Hok Hin) Hb)))).
Defined.

Lemma reconciliation_is_idempotent_witness :
  (∀ id, env_write_ok web_env id = true) ∧
  store (lambda_handler web_env web_event
           (store (lambda_handler web_env web_event tracked_table)))
  = store (lambda_handler web_env web_event tracked_table).
Proof.
  assert (H1 : ∀ id, env_write_ok web_env id = true) by (intros id; reflexivity).
  exact (conj H1 (reconciliation_is_idempotent web_env web_event tracked_table H1)).
Defined.

Lemma failed_check_resolves_region_witness :
  parse_event web_event = Some ("111111111111", "prod", "us-east-1", web_rest) ∧
  env_setup unchecked_env = SessionOk ∧
  env_read_ok unchecked_env = true ∧
  env_check unchecked_env = Some false ∧
  (∀ id, env_write_ok unchecked_env id = true) ∧
  (∀ a id s, WriteIssue a id s
               ∉ trace (lambda_handler unchecked_env web_event tracked_table)) ∧
  store (lambda_handler unchecked_env web_event tracked_table)
    !! ("111111111111", "web") = Some (resolved_row notified_row) ∧
  store (lambda_handler unchecked_env web_event tracked_table)
    !! ("111111111111", "api") = Some (resolved_row api_row) ∧
  store (lambda_handler unchecked_env web_event tracked_table)
    !! ("111111111111", "batch") = Some batch_row.
Proof.
  assert (H2 : env_setup unchecked_env = SessionOk) by reflexivity.
  assert (H3 : env_read_ok unchecked_env = true) by reflexivity.
  assert (H4 : env_check unchecked_env = Some false) by reflexivity.
  assert (H5 : ∀ id, env_write_ok unchecked_env id = true)
    by (intros id; reflexivity).
  assert (Hweb : tracked_table !! ("111111111111", "web") = Some notified_row)
    by (vm_compute; reflexivity).
  assert (Hapi : tracked_table !! ("111111111111", "api") = Some api_row)
    by (vm_compute; reflexivity).
  assert (Hbatch : tracked_table !! ("111111111111", "batch") = Some batch_row)
    by (vm_compute; reflexivity).
  destruct (failed_check_resolves_region unchecked_env web_event tracked_table
              "111111111111" "prod" "us-east-1" web_rest web_parse H2 H3 H4 H5)
    as (Ha & Hb & Hc).
  assert (Hother : store (lambda_handler unchecked_env web_event tracked_table)
                     !! ("111111111111", "batch") = Some batch_row).
  { rewrite <- Hbatch. apply Hc. intros r Hr (_ & _ & HX).
    rewrite Hbatch in Hr. injection Hr as <-. discriminate HX. }
  exact (conj web_parse (conj H2 (conj H3 (conj H4 (conj H5 (conj Ha
    (conj (Hb "web" notified_row Hweb eq_refl eq_refl)
    (conj (Hb "api" api_row Hapi eq_refl eq_refl) Hother)))))))).
Defined.

Lemma resolution_follows_recorded_region_witness :
  parse_event web_event = Some ("111111111111", "prod", "us-east-1", web_rest) ∧
  store (lambda_handler web_env web_event shared_name_table)
    !! ("111111111111", "api") = Some (resolved_row api_row) ∧
  store (lambda_handler web_env web_event shared_name_table)
    !! ("111111111111", "batch") = Some batch_row ∧
  ∃ td, td ∈ scanned_findings web_env ∧
    ("111111111111", "web") = ("111111111111", name td) ∧
    store (lambda_handler web_env web_event shared_name_table)
      !! ("111111111111", "web") =
      Some (mkRow (refresh_status (row_status web_row)
                     (if env_in_whitelist web_env "111111111111" (name td)
                      then Whitelisted else Open))
                  (mkDetails (td_arn td) (td_tags td)
                             (td_container_name td) (td_region td))).
Proof.
  assert (Hapi : shared_name_table !! ("111111111111", "api") = Some api_row)
    by (vm_compute; reflexivity).
  assert (Hbatch : shared_name_table !! ("111111111111", "batch") = Some batch_row)
    by (vm_compute; reflexivity).
  assert (Hweb : shared_name_table !! ("111111111111", "web") = Some web_row)
    by (vm_compute; reflexivity).
  assert (Hno : "api" ∉ name <$> scanned_findings web_env).
  { rewrite web_findings. apply not_elem_of_cons. split; [discriminate|].
    apply not_elem_of_nil. }
  assert (Hreg : region (row_details batch_row) ≠ "us-east-1") by discriminate.
  assert (Hreg' : region (row_details web_row) ≠ "us-east-1") by discriminate.
  assert (E : (λ td, ("111111111111", name td)) <$> scanned_findings web_env
              = [("111111111111", "web")]) by (vm_compute; reflexivity).
  assert (Hkey : ("111111111111", "batch")
                   ∉ (λ td, ("111111111111", name td)) <$> scanned_findings web_env).
  { rewrite E. apply not_elem_of_cons. split; [discriminate|].
    apply not_elem_of_nil. }
  assert (Hdet : ("111111111111", "web")
                   ∈ (λ td, ("111111111111", name td)) <$> scanned_findings web_env).
  { rewrite E. apply list_elem_of_here. }
  destruct (resolution_follows_recorded_region web_env web_event shared_name_table
              "111111111111" "prod" "us-east-1" web_rest web_parse) as [Ha Hb].
  destruct (Hb ("111111111111", "batch") batch_row Hbatch Hreg) as (_ & Hsame & _).
  destruct (Hb ("111111111111", "web") web_row Hweb Hreg') as (_ & _ & _ & Hfresh).
  exact (conj web_parse
    (conj (Ha web_env_succeeds "api" api_row Hapi eq_refl eq_refl Hno)
          (conj (Hsame Hkey) (Hfresh web_env_succeeds Hdet)))).
Defined.

Lemma empty_regions_is_a_parse_failure_witness :
  p_regions web_rest = Some [] ∧
  parse_event (Some web_rest) = None ∧
  lambda_handler web_env (Some web_rest) tracked_table
    = mkWorld tracked_table [LogException FailedToParse] ∧
  lambda_handler web_env (Some web_rest) tracked_table
    = lambda_handler web_env None tracked_table.
Proof.
  assert (H1 : p_regions web_rest = Some []) by reflexivity.
  exact (conj H1
    (empty_regions_is_a_parse_failure web_env web_rest tracked_table H1)).
Defined.

Lemma continuation_pops_last_region_witness :
  p_account_id two_regions_payload = Some "111111111111" ∧
  p_account_name two_regions_payload = Some "prod" ∧
  p_regions two_regions_payload = Some (["eu-west-1"] ++ ["us-east-1"]) ∧
  parse_event (Some two_regions_payload)
    = Some ("111111111111", "prod", "us-east-1",
            mkPayload (Some "111111111111") (Some "prod") (Some ["eu-west-1"])
                      (Some "arn:aws:sns:topic")) ∧
  scanned_regions
    (trace (run_chain [web_env; web_env] (Some two_regions_payload) tracked_table))
    = ["us-east-1"; "eu-west-1"].
Proof.
  assert (H1 : p_account_id two_regions_payload = Some "111111111111")
    by reflexivity.
  assert (H2 : p_account_name two_regions_payload = Some "prod") by reflexivity.
  assert (H3 : p_regions two_regions_payload = Some (["eu-west-1"] ++ ["us-east-1"]))
    by reflexivity.
  assert (Hok : invocation_succeeds web_env)
    by (split; [exact web_env_succeeds|reflexivity]).
  assert (Hall : Forall invocation_succeeds [web_env; web_env])
    by (apply List.Forall_cons;
        [exact Hok|apply List.Forall_cons; [exact Hok|apply List.Forall_nil]]).
  assert (Hlen : length (["eu-west-1"] ++ ["us-east-1"]) ≤ length [web_env; web_env])
    by (simpl; lia).
  destruct (continuation_pops_last_region web_env two_regions_payload tracked_table
              "111111111111" "prod" "us-east-1" ["eu-west-1"] H1 H2 H3)
    as (Ha & _ & Hc).
  exact (conj H1 (conj H2 (conj H3 (conj Ha
    (Hc [web_env; web_env] "arn:aws:sns:topic" eq_refl Hall Hlen))))).
Defined.


(** *** Further properties of the handler *)

(** The parse step succeeds exactly on a message that has the three keys
    and a non-empty list of regions; it takes the last region and leaves
    the others, in their order, in the payload. *)
Theorem parse_event_succeeds_iff
    (event : Event) (account n r : string) (p : Payload) :
  parse_event event = Some (account, n, r, p) ↔
  ∃ payload regions,
    event = Some payload ∧
    p_account_id payload = Some account ∧
    p_account_name payload = Some n ∧
    p_regions payload = Some (regions ++ [r]) ∧
    p = mkPayload (Some account) (Some n) (Some regions) (p_sns_arn payload).
Proof.
  split.
  - unfold parse_event. destruct event as [payload|]; [|done]. simpl.
    destruct (p_account_id payload) as [a|] eqn:Ha; [|done]. simpl.
    destruct (p_account_name payload) as [m|] eqn:Hn; [|done]. simpl.
    destruct (p_regions payload) as [regions|] eqn:Hr; [|done]. simpl.
    destruct (pop regions) as [[x rest]|] eqn:Hpop; [|done]. simpl.
    intros [= -> -> -> <-]. apply pop_Some in Hpop. subst regions.
    exists payload, rest. done.
  - intros (payload & regions & -> & Ha & Hn & Hr & ->).
    by apply parse_event_snoc.
Qed.

(** A message that is missing, or lacks one of the three keys, is logged
    and nothing else happens. *)
Theorem malformed_event_only_logs (env : Env) (event : Event) (t : Table) :
  (event = None ∨
   ∃ payload, event = Some payload ∧
     (p_account_id payload = None ∨ p_account_name payload = None ∨
      p_regions payload = None)) →
  lambda_handler env event t = mkWorld t [LogException FailedToParse].
Proof.
  intros H.
  assert (Hp : parse_event event = None).
  { destruct H as [->|(payload & -> & H)]; [done|]. unfold parse_event. simpl.
    destruct (p_account_id payload); simpl; [|done].
    destruct (p_account_name payload); simpl; [|done].
    destruct (p_regions payload); simpl; [|done].
    destruct H as [?|[?|?]]; done. }
  unfold lambda_handler. by rewrite Hp.
Qed.

(** Without a session the handler returns at once: no log entry, no read,
    no scan, no write and no continuation, whatever regions remain. *)
Theorem no_session_returns_silently
    (env : Env) (event : Event) (t : Table) (account n X : string) (p : Payload) :
  parse_event event = Some (account, n, X, p) →
  env_setup env = SessionNone →
  lambda_handler env event t = mkWorld t [].
Proof.
  intros Hp Hs. unfold lambda_handler, scan_region. by rewrite Hp, Hs.
Qed.

(** An exception before the loops (configuration or account, the read of
    the open issues, [check()]) is logged; the table is left as it was and
    the continuation is not published. *)
Theorem scan_exception_is_logged
    (env : Env) (event : Event) (t : Table) (account n X : string) (p : Payload) :
  parse_event event = Some (account, n, X, p) →
  env_setup env = SetupRaises ∨
  (env_setup env = SessionOk ∧
   (env_read_ok env = false ∨ (env_read_ok env = true ∧ env_check env = None))) →
  store (lambda_handler env event t) = t ∧
  last (trace (lambda_handler env event t))
    = Some (LogException (FailedToCheck account n)) ∧
  published (trace (lambda_handler env event t)) = [].
Proof.
  intros Hp H. unfold lambda_handler, scan_region. rewrite Hp.
  destruct H as [->|[-> [Hr|[Hr Hc]]]]; [done|..].
  - run_step. by rewrite Hr.
  - run_step. rewrite Hr, Hc. done.
Qed.

Lemma refresh_issues_refused (env : Env) (account : string)
    (tds F1 F2 : list TaskDefinition) (td : TaskDefinition)
    (d : gmap string Issue) (w : State) :
  findings tds = F1 ++ td :: F2 →
  Forall (λ x, env_write_ok env (name x) = true) F1 →
  env_write_ok env (name td) = false →
  refresh_issues env account tds d w =
    Raised (mkWorld (foldl update (store w) (detected_issue env account <$> F1))
                    (trace w ++ (write_effect env account <$> F1))).
Proof.
  revert F1 d w. induction tds as [|x tds IH]; intros F1 d w HF Hok Hno.
  - by destruct F1.
  - rewrite findings_cons in HF. simpl refresh_issues.
    destruct (is_privileged x) eqn:Ep; [|by apply IH].
    destruct F1 as [|y F1]; simpl in HF; injection HF as -> HF.
    + run_step. rewrite Hno. simpl. by rewrite app_nil_r, world_eta.
    + apply Forall_cons in Hok as [Hy Hok]. run_step. rewrite Hy. simpl.
      rewrite (IH F1 _ _ HF Hok Hno). simpl. by rewrite <- app_assoc.
Qed.

(** A refused write stops the scan where it is: the findings before it
    are stored, nothing after it is written, no issue is resolved and the
    continuation is not published. *)
Theorem refused_write_stops_the_scan
    (env : Env) (event : Event) (t : Table) (account n X : string) (p : Payload)
    (F1 F2 : list TaskDefinition) (td : TaskDefinition) :
  parse_event event = Some (account, n, X, p) →
  env_setup env = SessionOk →
  env_read_ok env = true →
  env_check env = Some true →
  findings (env_task_definitions env) = F1 ++ td :: F2 →
  Forall (λ x, env_write_ok env (name x) = true) F1 →
  env_write_ok env (name td) = false →
  lambda_handler env event t =
    mkWorld (foldl update t (detected_issue env account <$> F1))
            ([ReadIssues account; Scan account X]
               ++ (write_effect env account <$> F1)
               ++ [LogException (FailedToCheck account n)]).
Proof.
  intros Hp Hs Hr Hc HF Hok Hno. unfold lambda_handler, scan_region.
  rewrite Hp, Hs, Hr, Hc. run_step.
  rewrite (refresh_issues_refused _ _ _ _ _ _ _ _ HF Hok Hno). simpl.
  done.
Qed.

(** A failure of the publish step, or a payload without topic, is logged
    and swallowed: the table is the one the reconciliation left. *)
Theorem publish_failure_is_swallowed
    (env : Env) (event : Event) (t : Table) (account n X r0 : string)
    (p : Payload) (rest : list string) :
  parse_event event = Some (account, n, X, p) →
  scan_succeeds env →
  p_regions p = Some (r0 :: rest) →
  env_publish_ok env = false ∨ p_sns_arn p = None →
  lambda_handler env event t =
    mkWorld (reconciled env account X t)
            ([ReadIssues account; Scan account X]
               ++ (write_effect env account <$> scanned_findings env)
               ++ (resolve_effect <$> retired env account X t)
               ++ [LogException FailedToChain]).
Proof.
  intros Hp Hok Hr Hfail. unfold lambda_handler.
  rewrite Hp, (scan_region_clean _ _ _ _ Hok). unfold chain. rewrite Hr.
  destruct (p_sns_arn p) as [topic|];
    [destruct Hfail as [->|?]; [|done]|]; run_step; by rewrite <- !app_assoc.
Qed.

Lemma published_nil (tr : list Effect) :
  (∀ topic p, Publish topic p ∉ tr) → published tr = [].
Proof.
  induction tr as [|e tr IH]; intros H; [done|]. unfold published in *. simpl.
  destruct e; try (apply IH; intros topic q Hin; apply (H topic q);
                   by apply elem_of_cons; right).
  exfalso. apply (H topic p), list_elem_of_here.
Qed.

(** An invocation publishes at most one message, and only the payload the
    parse step left (the incoming one without the popped region), to the
    topic this payload names; with no region left it publishes nothing. *)
Theorem publishes_at_most_the_rest
    (env : Env) (event : Event) (t : Table) :
  published (trace (lambda_handler env event t)) = [] ∨
  ∃ account n X p topic r0 rest,
    parse_event event = Some (account, n, X, p) ∧
    p_sns_arn p = Some topic ∧
    p_regions p = Some (r0 :: rest) ∧
    published (trace (lambda_handler env event t)) = [(topic, p)].
Proof.
  unfold lambda_handler.
  destruct (parse_event event) as [[[[account n] X] p]|] eqn:Hp; [|by left].
  pose proof (published_nil _ (scan_region_never_publishes env account X t)) as Hnil.
  destruct (scan_region env account X (mkWorld t [])) as [[] w|w|w]; simpl in *.
  - unfold chain. destruct (p_regions p) as [[|r0 rest]|] eqn:Hr; simpl;
      [by left| |by left].
    destruct (p_sns_arn p) as [topic|] eqn:Ht; simpl;
      [destruct (env_publish_ok env); simpl|].
    + right. exists account, n, X, p, topic, r0, rest.
      unfold published in *. rewrite omap_app, Hnil. done.
    + left. unfold published in *. rewrite omap_app, Hnil. done.
    + left. unfold published in *. rewrite omap_app, Hnil. done.
  - left. unfold published in *. rewrite omap_app, Hnil. done.
  - by left.
Qed.


(** The handler reads and writes the issues of the account of the message
    only: every row of another account is left as it was. *)
Theorem other_accounts_untouched
    (env : Env) (event : Event) (t : Table) (account n X : string) (p : Payload)
    (k : string * string) :
  parse_event event = Some (account, n, X, p) →
  k.1 ≠ account →
  store (lambda_handler env event t) !! k = t !! k.
Proof.
  intros Hp Hk. rewrite (handler_store _ _ _ _ _ _ _ Hp).
  destruct (scan_region_shape env account X t) as (F & R & hdr & _ & HR & _ & -> & _).
  rewrite foldl_resolved_lookup. rewrite decide_False.
  - destruct (detected_lookup env account F t k) as [[-> _]|(td & _ & -> & _)];
      [done|]. by destruct Hk.
  - intros Hin. destruct (not_retired_prefix _ _ _ _ _ _ _ HR Hin) as (id & r & -> & _).
    by destruct Hk.
Qed.

(** The handler never removes an issue from the table. *)
Theorem no_issue_is_deleted
    (env : Env) (event : Event) (t : Table) (k : string * string) :
  is_Some (t !! k) → is_Some (store (lambda_handler env event t) !! k).
Proof.
  intros Hk.
  destruct (parse_event event) as [[[[account n] X] p]|] eqn:Hp;
    [|unfold lambda_handler; by rewrite Hp].
  rewrite (handler_store _ _ _ _ _ _ _ Hp).
  destruct (scan_region_shape env account X t) as (F & R & hdr & _ & _ & _ & -> & _).
  rewrite foldl_resolved_lookup.
  assert (Hin : is_Some (foldl update t (detected_issue env account <$> F) !! k)).
  { destruct (detected_lookup env account F t k) as [[-> _]|(td & _ & _ & ->)];
      [done|eauto]. }
  case_decide; [|done]. destruct Hin as [r ->]. eauto.
Qed.

(** A privileged task definition without an issue yet gets one: Open, or
    Whitelisted when the whitelist exempts it, with the details of the
    last task definition reported under that name. *)
Theorem new_finding_creates_issue
    (env : Env) (event : Event) (t : Table) (account n X : string) (p : Payload)
    (td : TaskDefinition) :
  parse_event event = Some (account, n, X, p) →
  scan_succeeds env →
  td ∈ scanned_findings env →
  t !! (account, name td) = None →
  ∃ td', td' ∈ scanned_findings env ∧ name td' = name td ∧
    store (lambda_handler env event t) !! (account, name td) =
      Some (mkRow (if env_in_whitelist env account (name td)
                   then Whitelisted else Open)
                  (mkDetails (td_arn td') (td_tags td') (td_container_name td')
                             (td_region td'))).
Proof.
  intros Hp Hok Htd Hnone. rewrite (handler_store _ _ _ _ _ _ _ Hp).
  rewrite (scan_region_clean _ _ _ _ Hok). simpl. unfold reconciled, refreshed.
  rewrite foldl_resolved_lookup. rewrite decide_False.
  - destruct (detected_lookup env account (scanned_findings env) t (account, name td))
      as [[_ Hk]|(td' & Htd' & Hk & ->)].
    + exfalso. apply Hk, list_elem_of_fmap. eauto.
    + injection Hk as Hk. exists td'. split; [done|]. split; [done|].
      rewrite Hnone. simpl. by rewrite Hk.
  - intros (i & Hk & Hi)%list_elem_of_fmap.
    apply retired_key in Hi as (id' & r & Hk' & Hr & _).
    rewrite Hk' in Hk. injection Hk as Hk. subst id'. congruence.
Qed.

Lemma refresh_issues_only_findings (env : Env) (account : string)
    (tds : list TaskDefinition) (d : gmap string Issue) (w : State) :
  refresh_issues (only_findings env) account (findings tds) d w
  = refresh_issues env account tds d w.
Proof.
  revert d w. induction tds as [|x tds IH]; intros d w; [done|].
  rewrite findings_cons. simpl refresh_issues.
  destruct (is_privileged x) eqn:Ep; [|apply IH].
  simpl refresh_issues. rewrite Ep. run_step.
  destruct (env_write_ok env (name x)); simpl; [|done]. apply IH.
Qed.

Lemma resolve_issues_only_findings (env : Env) (l : list Issue) (w : State) :
  resolve_issues (only_findings env) l w = resolve_issues env l w.
Proof.
  revert w. induction l as [|i l IH]; intros w; [done|]. simpl. run_step.
  destruct (env_write_ok env (issue_id i)); simpl; [apply IH|done].
Qed.

(** Task definitions that are not privileged play no part: the handler
    does the same with and without them. *)
Theorem unprivileged_definitions_are_ignored
    (env : Env) (event : Event) (t : Table) :
  lambda_handler (only_findings env) event t = lambda_handler env event t.
Proof.
  unfold lambda_handler.
  destruct (parse_event event) as [[[[account n] X] p]|]; [|done].
  assert (E : scan_region (only_findings env) account X (mkWorld t [])
              = scan_region env account X (mkWorld t [])).
  { unfold scan_region. simpl. destruct (env_setup env); try done.
    run_step. destruct (env_read_ok env); simpl; [|done].
    destruct (env_check env) as [[|]|]; simpl; try done.
    - rewrite refresh_issues_only_findings.
      destruct (refresh_issues env account _ _ _); try done.
      apply resolve_issues_only_findings.
    - apply resolve_issues_only_findings. }
  rewrite E. destruct (scan_region env account X _) as [[] w|w|w]; done.
Qed.

(** The handler resolves nothing but issues of the account that the table
    listed as open in the scanned region and that the scan did not
    detect. *)
Theorem resolves_only_missing_open_issues
    (env : Env) (event : Event) (t : Table) (account n X : string) (p : Payload)
    (a id : string) :
  parse_event event = Some (account, n, X, p) →
  ResolveIssue a id ∈ trace (lambda_handler env event t) →
  a = account ∧
  ∃ r, t !! (account, id) = Some r ∧
       is_open_status (row_status r) = true ∧
       region (row_details r) = X ∧
       id ∉ name <$> scanned_findings env.
Proof.
  intros Hp Hin.
  destruct (handler_trace env event t _ _ _ _ Hp) as (tail & Ht & Htail).
  rewrite Ht in Hin.
  destruct (scan_region_shape env account X t) as (F & R & hdr & _ & HR & Hh & _ & Htr).
  rewrite Htr in Hin.
  apply elem_of_app in Hin as [Hin|Hin].
  - apply elem_of_app in Hin as [Hin|Hin].
    + destruct Hh as [rest Hh].
      assert (Hin' : ResolveIssue a id ∈ [ReadIssues account; Scan account X])
        by (rewrite Hh; apply elem_of_app; by left).
      apply elem_of_cons in Hin' as [?|Hin']; [done|].
      apply elem_of_cons in Hin' as [?|Hin']; [done|]. by apply elem_of_nil in Hin'.
    + apply elem_of_app in Hin as [(td & ? & _)%list_elem_of_fmap|Hin]; [done|].
      apply list_elem_of_fmap in Hin as (i & E & Hi).
      destruct HR as [->|[-> [R' HR]]]; [by apply elem_of_nil in Hi|].
      assert (Hret : i ∈ retired env account X t)
        by (rewrite HR; apply elem_of_app; by left).
      apply retired_key in Hret as (id' & r & Hk & Hr & Ho & HX & Hid).
      unfold resolve_effect in E. injection E as -> ->.
      unfold key_of in Hk. injection Hk as Ha Hi'. rewrite Ha, Hi'. eauto 10.
  - destruct Htail as [->|[->|[->|[topic ->]]]];
      [by apply elem_of_nil in Hin|apply list_elem_of_singleton in Hin; done..].
Qed.

(** An invocation scans at most once, and then the region it popped: it
    does so exactly when the session was opened and the open issues were
    read. *)
Theorem scans_only_the_popped_region
    (env : Env) (event : Event) (t : Table) (account n X : string) (p : Payload) :
  parse_event event = Some (account, n, X, p) →
  scanned_regions (trace (lambda_handler env event t)) =
    if decide (env_setup env = SessionOk ∧ env_read_ok env = true)
    then [X] else [].
Proof.
  intros Hp.
  destruct (handler_trace env event t _ _ _ _ Hp) as (tail & -> & Htail).
  assert (Htl : scanned_regions tail = []).
  { destruct Htail as [->|[->|[->|[topic ->]]]]; done. }
  unfold scanned_regions in *. rewrite omap_app, Htl, app_nil_r.
  assert (Hw : ∀ F : list TaskDefinition,
            omap (λ e, match e with Scan _ r => Some r | _ => None end)
                 (write_effect env account <$> F) = [])
    by (intros F; by apply omap_fmap_none).
  assert (Hres : ∀ R : list Issue,
            omap (λ e, match e with Scan _ r => Some r | _ => None end)
                 (resolve_effect <$> R) = [])
    by (intros R; by apply omap_fmap_none).
  unfold scan_region. destruct (decide _) as [[Hs Hr]|Hno].
  2:{ destruct (env_setup env); try done. run_step.
      destruct (env_read_ok env); simpl; [|done]. by destruct Hno. }
  rewrite Hs. run_step. rewrite Hr. simpl.
  destruct (env_check env) as [[|]|]; simpl; [| |done].
  - set (d := open_issues_of _ _). set (w := mkWorld t _).
    destruct (refresh_issues_shape env account (env_task_definitions env) d w)
      as (F & _ & _ & Ht & Ho).
    destruct (refresh_issues env account (env_task_definitions env) d w)
      as [d' w'|w'|w'] eqn:E; simpl in *; [|..|done].
    + destruct (resolve_issues_shape env (map_to_list d').*2 w') as (R & _ & _ & HtR & _).
      rewrite HtR, Ht. simpl. by rewrite omap_app, Hw, Hres.
    + rewrite Ht. simpl. by rewrite Hw.
  - set (d := open_issues_of _ _). set (w := mkWorld t _).
    destruct (resolve_issues_shape env (map_to_list d).*2 w) as (R & _ & _ & HtR & _).
    rewrite HtR. subst w. simpl. by rewrite Hres.
Qed.

(** A row is left as it was unless the scan detects a resource under its
    key or the table listed it as open in the scanned region: in
    particular a Remediated or Resolved issue is not resolved again, and no
    issue appears for a key the scan did not detect. *)
Theorem untouched_unless_detected_or_open_in_region
    (env : Env) (event : Event) (t : Table) (account n X : string) (p : Payload)
    (k : string * string) :
  parse_event event = Some (account, n, X, p) →
  k ∉ (λ td, (account, name td)) <$> scanned_findings env →
  (∀ r, t !! k = Some r →
        ¬ (k.1 = account ∧ is_open_status (row_status r) = true ∧
           region (row_details r) = X)) →
  store (lambda_handler env event t) !! k = t !! k.
Proof.
  intros Hp Hk Hnot. rewrite (handler_store _ _ _ _ _ _ _ Hp).
  destruct (scan_region_shape env account X t) as (F & R & hdr & HF & HR & _ & -> & _).
  rewrite foldl_resolved_lookup. rewrite decide_False.
  - destruct (detected_lookup env account F t k) as [[-> _]|(td & Htd & -> & _)];
      [done|].
    exfalso. apply Hk, list_elem_of_fmap. exists td. split; [done|].
    destruct HF as [F' ->]. apply elem_of_app. by left.
  - intros Hin.
    destruct (not_retired_prefix _ _ _ _ _ _ _ HR Hin) as (id & r & -> & Hr & Ho & HX & _).
    by apply (Hnot r).
Qed.

(** *** The further properties on the scenarios *)

Lemma malformed_event_only_logs_witness :
  (Some keyless_payload = None ∨
   ∃ payload, Some keyless_payload = Some payload ∧
     (p_account_id payload = None ∨ p_account_name payload = None ∨
      p_regions payload = None)) ∧
  lambda_handler web_env (Some keyless_payload) tracked_table
    = mkWorld tracked_table [LogException FailedToParse].
Proof.
  assert (H1 : Some keyless_payload = None ∨
               ∃ payload, Some keyless_payload = Some payload ∧
                 (p_account_id payload = None ∨ p_account_name payload = None ∨
                  p_regions payload = None)).
  { right. exists keyless_payload. split; [reflexivity|]. left. reflexivity. }
  exact (conj H1
    (malformed_event_only_logs web_env (Some keyless_payload) tracked_table H1)).
Defined.

Lemma two_regions_parse :
  parse_event two_regions_event
    = Some ("111111111111", "prod", "us-east-1", one_region_left).
Proof. vm_compute. reflexivity. Defined.

Lemma no_session_returns_silently_witness :
  parse_event two_regions_event
    = Some ("111111111111", "prod", "us-east-1", one_region_left) ∧
  env_setup no_session_env = SessionNone ∧
  lambda_handler no_session_env two_regions_event tracked_table
    = mkWorld tracked_table [].
Proof.
  exact (conj two_regions_parse (conj eq_refl
    (no_session_returns_silently no_session_env two_regions_event tracked_table
       "111111111111" "prod" "us-east-1" one_region_left two_regions_parse
       eq_refl))).
Defined.

Lemma scan_exception_is_logged_witness :
  parse_event two_regions_event
    = Some ("111111111111", "prod", "us-east-1", one_region_left) ∧
  (env_setup raising_env = SetupRaises ∨
   (env_setup raising_env = SessionOk ∧
    (env_read_ok raising_env = false ∨
     (env_read_ok raising_env = true ∧ env_check raising_env = None)))) ∧
  store (lambda_handler raising_env two_regions_event tracked_table)
    = tracked_table ∧
  last (trace (lambda_handler raising_env two_regions_event tracked_table))
    = Some (LogException (FailedToCheck "111111111111" "prod")) ∧
  published (trace (lambda_handler raising_env two_regions_event tracked_table))
    = [].
Proof.
  assert (H2 : env_setup raising_env = SetupRaises ∨
               (env_setup raising_env = SessionOk ∧
                (env_read_ok raising_env = false ∨
                 (env_read_ok raising_env = true ∧ env_check raising_env = None))))
    by (left; reflexivity).
  exact (conj two_regions_parse (conj H2
    (scan_exception_is_logged raising_env two_regions_event tracked_table
       "111111111111" "prod" "us-east-1" one_region_left two_regions_parse H2))).
Defined.

Lemma refused_write_stops_the_scan_witness :
  parse_event web_event = Some ("111111111111", "prod", "us-east-1", web_rest) ∧
  env_setup refusing_env = SessionOk ∧
  env_read_ok refusing_env = true ∧
  env_check refusing_env = Some true ∧
  findings (env_task_definitions refusing_env) = [web_finding] ++ api_finding :: [] ∧
  Forall (λ x, env_write_ok refusing_env (name x) = true) [web_finding] ∧
  env_write_ok refusing_env (name api_finding) = false ∧
  lambda_handler refusing_env web_event tracked_table =
    mkWorld (foldl update tracked_table
                   (detected_issue refusing_env "111111111111" <$> [web_finding]))
            ([ReadIssues "111111111111"; Scan "111111111111" "us-east-1"]
               ++ (write_effect refusing_env "111111111111" <$> [web_finding])
               ++ [LogException (FailedToCheck "111111111111" "prod")]).
Proof.
  assert (H5 : findings (env_task_definitions refusing_env)
               = [web_finding] ++ api_finding :: []) by (vm_compute; reflexivity).
  assert (H6 : Forall (λ x, env_write_ok refusing_env (name x) = true) [web_finding])
    by (apply List.Forall_cons; [reflexivity|apply List.Forall_nil]).
  exact (conj web_parse (conj eq_refl (conj eq_refl (conj eq_refl (conj H5
    (conj H6 (conj eq_refl
      (refused_write_stops_the_scan refusing_env web_event tracked_table
         "111111111111" "prod" "us-east-1" web_rest [web_finding] []
         api_finding web_parse eq_refl eq_refl eq_refl H5 H6 eq_refl)))))))).
Defined.

Lemma mute_env_succeeds : scan_succeeds mute_env.
Proof. repeat split; try reflexivity. exists true. reflexivity. Defined.

Lemma publish_failure_is_swallowed_witness :
  parse_event two_regions_event
    = Some ("111111111111", "prod", "us-east-1", one_region_left) ∧
  scan_succeeds mute_env ∧
  p_regions one_region_left = Some ("eu-west-1" :: []) ∧
  (env_publish_ok mute_env = false ∨ p_sns_arn one_region_left = None) ∧
  lambda_handler mute_env two_regions_event tracked_table =
    mkWorld (reconciled mute_env "111111111111" "us-east-1" tracked_table)
            ([ReadIssues "111111111111"; Scan "111111111111" "us-east-1"]
               ++ (write_effect mute_env "111111111111" <$> scanned_findings mute_env)
               ++ (resolve_effect
                     <$> retired mute_env "111111111111" "us-east-1" tracked_table)
               ++ [LogException FailedToChain]).
Proof.
  assert (H4 : env_publish_ok mute_env = false ∨ p_sns_arn one_region_left = None)
    by (left; reflexivity).
  exact (conj two_regions_parse (conj mute_env_succeeds (conj eq_refl (conj H4
    (publish_failure_is_swallowed mute_env two_regions_event tracked_table
       "111111111111" "prod" "us-east-1" "eu-west-1" one_region_left []
       two_regions_parse mute_env_succeeds eq_refl H4))))).
Defined.

Lemma other_accounts_untouched_witness :
  parse_event web_event = Some ("111111111111", "prod", "us-east-1", web_rest) ∧
  ("222222222222", "web").1 ≠ "111111111111" ∧
  store (lambda_handler web_env web_event tracked_table) !! ("222222222222", "web")
    = tracked_table !! ("222222222222", "web").
Proof.
  assert (H2 : ("222222222222", "web").1 ≠ "111111111111") by (simpl; discriminate).
  exact (conj web_parse (conj H2
    (other_accounts_untouched web_env web_event tracked_table
       "111111111111" "prod" "us-east-1" web_rest ("222222222222", "web")
       web_parse H2))).
Defined.

Lemma no_issue_is_deleted_witness :
  is_Some (tracked_table !! ("111111111111", "api")) ∧
  is_Some (store (lambda_handler web_env web_event tracked_table)
             !! ("111111111111", "api")).
Proof.
  assert (H1 : is_Some (tracked_table !! ("111111111111", "api")))
    by (exists api_row; vm_compute; reflexivity).
  exact (conj H1
    (no_issue_is_deleted web_env web_event tracked_table ("111111111111", "api") H1)).
Defined.

Lemma new_finding_creates_issue_witness :
  parse_event web_event = Some ("111111111111", "prod", "us-east-1", web_rest) ∧
  scan_succeeds web_env ∧
  web_finding ∈ scanned_findings web_env ∧
  (∅ : Table) !! ("111111111111", name web_finding) = None ∧
  ∃ td', td' ∈ scanned_findings web_env ∧ name td' = name web_finding ∧
    store (lambda_handler web_env web_event ∅) !! ("111111111111", name web_finding) =
      Some (mkRow (if env_in_whitelist web_env "111111111111" (name web_finding)
                   then Whitelisted else Open)
                  (mkDetails (td_arn td') (td_tags td') (td_container_name td')
                             (td_region td'))).
Proof.
  assert (H3 : web_finding ∈ scanned_findings web_env)
    by (vm_compute; apply list_elem_of_here).
  assert (H4 : (∅ : Table) !! ("111111111111", name web_finding) = None)
    by reflexivity.
  exact (conj web_parse (conj web_env_succeeds (conj H3 (conj H4
    (new_finding_creates_issue web_env web_event ∅ "111111111111" "prod"
       "us-east-1" web_rest web_finding web_parse web_env_succeeds H3 H4))))).
Defined.

Lemma resolves_only_missing_open_issues_witness :
  parse_event web_event = Some ("111111111111", "prod", "us-east-1", web_rest) ∧
  ResolveIssue "111111111111" "api"
    ∈ trace (lambda_handler web_env web_event tracked_table) ∧
  "111111111111" = "111111111111" ∧
  ∃ r, tracked_table !! ("111111111111", "api") = Some r ∧
       is_open_status (row_status r) = true ∧
       region (row_details r) = "us-east-1" ∧
       "api" ∉ name <$> scanned_findings web_env.
Proof.
  assert (E : trace (lambda_handler web_env web_event tracked_table) =
            [ReadIssues "111111111111"; Scan "111111111111" "us-east-1";
             WriteIssue "111111111111" "web" Open;
             ResolveIssue "111111111111" "api"]) by (vm_compute; reflexivity).
  assert (H2 : ResolveIssue "111111111111" "api"
                 ∈ trace (lambda_handler web_env web_event tracked_table)).
  { rewrite E. do 3 apply list_elem_of_further. apply list_elem_of_here. }
  exact (conj web_parse (conj H2
    (resolves_only_missing_open_issues web_env web_event tracked_table
       "111111111111" "prod" "us-east-1" web_rest "111111111111" "api"
       web_parse H2))).
Defined.

Lemma scans_only_the_popped_region_witness :
  parse_event web_event = Some ("111111111111", "prod", "us-east-1", web_rest) ∧
  scanned_regions (trace (lambda_handler web_env web_event tracked_table))
    = ["us-east-1"].
Proof.
  exact (conj web_parse
    (scans_only_the_popped_region web_env web_event tracked_table
       "111111111111" "prod" "us-east-1" web_rest web_parse)).
Defined.

Lemma untouched_unless_detected_or_open_in_region_witness :
  parse_event web_event = Some ("111111111111", "prod", "us-east-1", web_rest) ∧
  (("111111111111", "batch")
     ∉ (λ td, ("111111111111", name td)) <$> scanned_findings web_env) ∧
  (∀ r, tracked_table !! ("111111111111", "batch") = Some r →
        ¬ (("111111111111", "batch").1 = "111111111111" ∧
           is_open_status (row_status r) = true ∧
           region (row_details r) = "us-east-1")) ∧
  store (lambda_handler web_env web_event tracked_table) !! ("111111111111", "batch")
    = tracked_table !! ("111111111111", "batch").
Proof.
  assert (H2 : ("111111111111", "batch")
                 ∉ (λ td, ("111111111111", name td)) <$> scanned_findings web_env).
  { intros Hin. pose proof (bool_decide_pack _ Hin) as Hb.
    vm_compute in Hb. exact Hb. }
  assert (H3 : ∀ r, tracked_table !! ("111111111111", "batch") = Some r →
                    ¬ (("111111111111", "batch").1 = "111111111111" ∧
                       is_open_status (row_status r) = true ∧
                       region (row_details r) = "us-east-1")).
  { intros r Hr (_ & _ & HX).
    assert (E : tracked_table !! ("111111111111", "batch") = Some batch_row)
      by (vm_compute; reflexivity).
    rewrite E in Hr. injection Hr as <-. discriminate HX. }
  exact (conj web_parse (conj H2 (conj H3
    (untouched_unless_detected_or_open_in_region web_env web_event tracked_table
       "111111111111" "prod" "us-east-1" web_rest ("111111111111", "batch")
       web_parse H2 H3)))).
Defined.

End ECS_proofs.

Module IAM_proofs.
Import IAM.
Local Open Scope Z_scope.

Lemma set_status_remediated_lookup (stamp : string) (t : Table) (i : Issue)
    (k : string * string) :
  set_status_remediated stamp t i !! k =
  if decide (key_of i = k) then remediated_row stamp <$> t !! k else t !! k.
Proof.
  unfold set_status_remediated. case_decide as E.
  - subst k. apply lookup_alter_eq.
  - by apply lookup_alter_ne.
Qed.

Lemma elem_of_open_key_issues (t : Table) (account : string) (i : Issue) :
  i ∈ get_account_open_issues t account ↔
  ∃ id r, t !! (account, id) = Some r ∧ is_open_status (row_status r) = true ∧
          i = issue_of_row (account, id) r.
Proof.
  unfold get_account_open_issues. rewrite list_elem_of_fmap. split.
  - intros ([[a id] r] & -> & [[Ha Ho] Hin%elem_of_map_to_list]%list_elem_of_filter).
    simpl in *. subst a. eauto.
  - intros (id & r & Ht & Ho & ->). exists ((account, id), r). split; [done|].
    apply list_elem_of_filter. split; [done|]. by apply elem_of_map_to_list.
Qed.

(** The two comments never coincide: they start with different letters. *)
Lemma failed_comment_distinct k u n a k' u' n' a' :
  failed_comment k u n a ≠ remediated_comment k' u' n' a'.
Proof. unfold failed_comment, remediated_comment. simpl. discriminate. Qed.

(** An exception of the remediation body stays inside the issue. *)
Lemma try_remediate_never_raises (env : Env) (config : Config) (batch : bool)
    (account n : string) (issue : Issue) (w : State) :
  ∃ w', try_remediate env config batch account n issue w = Done tt w'.
Proof.
  unfold try_remediate.
  destruct (remediate env config batch account n issue w); eauto.
Qed.

(** An exception of one issue ends the loop over the issues. *)
Lemma process_issues_raise (env : Env) (config : Config) (batch : bool)
    (account n : string) (issue : Issue) (issues : list Issue) (w w' : State) :
  process_issue env config batch account n issue w = Raised w' →
  process_issues env config batch account n (issue :: issues) w = Raised w'.
Proof. intros H. simpl. unfold mbind, M_bind. by rewrite H. Qed.


(** C2 (as the code has it): when the remediation of an issue is attempted
    and disabling the key fails, the failure comment, which differs from
    the success comment and asks for a manual check, goes to the ticket
    (without reassignment) and to Slack, and the issue is then marked
    Remediated all the same, so that the table no longer lists it as open. *)
Theorem failed_remediation_is_marked_remediated
    (env : Env) (config : Config) (batch : bool) (account n : string)
    (issue : Issue) (w : State) :
  batch = true ∨ env_confirm env (confirm_prompt (issue_id issue) (username issue)) = true →
  env_session env account = HasSession →
  env_disable_ok env (username issue) (issue_id issue) = false →
  account_id issue = account →
  let comment := failed_comment (issue_id issue) (username issue) n account in
  env_jira_remediate_ok env (ticket issue) comment false = true →
  env_slack_ok env (slack_message env comment (ticket issue)) account = true →
  env_write_ok env (issue_id issue) = true →
  let t' := set_status_remediated (stamp env config) (store w) issue in
  try_remediate env config batch account n issue w =
    Done tt (mkWorld t'
       (trace w
          ++ (if batch then []
              else [Confirm (confirm_prompt (issue_id issue) (username issue))])
          ++ [LogException FailedToDisable;
              JiraRemediate (ticket issue) comment false;
              SlackReport (slack_message env comment (ticket issue)) account;
              SetRemediated account (issue_id issue)])) ∧
  comment ≠ remediated_comment (issue_id issue) (username issue) n account ∧
  (∀ r, store w !! key_of issue = Some r →
        t' !! key_of issue = Some (remediated_row (stamp env config) r)) ∧
  (∀ j, j ∈ get_account_open_issues t' account → issue_id j ≠ issue_id issue).
Proof.
  intros Hgo Hs Hd Ha comment Hj Hsl Hw t'. split; [|split; [|split]].
  - unfold try_remediate, remediate. rewrite Hs, Hd. fold comment.
    destruct batch.
    + run_step. rewrite Hj. simpl. rewrite Hsl. simpl. rewrite Hw. simpl.
      by rewrite <- !app_assoc.
    + destruct Hgo as [?|Hc]; [done|]. run_step. rewrite Hc. simpl.
      rewrite Hj. simpl. rewrite Hsl. simpl. rewrite Hw. simpl.
      by rewrite <- !app_assoc.
  - apply failed_comment_distinct.
  - intros r Hr. unfold t'. rewrite set_status_remediated_lookup.
    rewrite decide_True by done. by rewrite Hr.
  - intros j (id & r & Ht & Ho & ->)%elem_of_open_key_issues. simpl.
    intros ->. unfold t' in Ht. rewrite set_status_remediated_lookup in Ht.
    rewrite decide_True in Ht by (unfold key_of; by rewrite Ha).
    destruct (store w !! _); [|done]. injection Ht as <-. done.
Qed.

(** C2, as stated, fails: the key of alice cannot be disabled, and the pass
    leaves her issue Remediated instead of Notified; the next pass does
    nothing about it. *)
Lemma failed_remediation_changes_status :
  let env := sample_env (λ _ _, true) (λ _ _, false) in
  overdue_table !! ("111111111111", "AKIAOLD") = Some overdue_row ∧
  row_status overdue_row = Notified ∧
  env_disable_ok env "alice" "AKIAOLD" = false ∧
  trace (main env sample_config true overdue_table) =
    [LogException FailedToDisable;
     JiraRemediate (Some "SEC-1")
       (failed_comment "AKIAOLD" "alice" "prod" "111111111111") false;
     SlackReport
       (failed_comment "AKIAOLD" "alice" "prod" "111111111111"
          +:+ " (https://jira.example.com/browse/SEC-1)") "111111111111";
     SetRemediated "111111111111" "AKIAOLD"] ∧
  row_status <$> store (main env sample_config true overdue_table)
                   !! ("111111111111", "AKIAOLD") = Some Remediated ∧
  trace (main env sample_config true
              (store (main env sample_config true overdue_table))) = [].
Proof. repeat split; vm_compute; reflexivity. Qed.

(** C3, on the code: the first account has a key whose warning is due, the
    second an overdue key.  With Slack refusing the warning, the exception
    leaves the pass: nothing is written and the overdue key of the second
    account is not touched, whereas with Slack answering it is disabled.
    An exception of the remediation branch does not do this: when the
    session of the first account raises, the key of the second account is
    disabled all the same. *)
Theorem notification_failure_aborts_the_pass :
  let env_down := sample_env slack_down_for_prod (λ _ _, true) in
  let env_up := sample_env (λ _ _, true) (λ _ _, true) in
  main env_down sample_config true two_accounts_table
    = mkWorld two_accounts_table [LogException FailedToClean] ∧
  trace (main env_up sample_config true two_accounts_table) =
    [SlackReport (warning_comment "AKIAWARN" 3) "111111111111";
     JiraUpdate (Some "SEC-2") (warning_comment "AKIAWARN" 3);
     SetNotified "111111111111" "AKIAWARN";
     DisableKey "alice" "AKIAOLD";
     JiraRemediate (Some "SEC-1")
       (remediated_comment "AKIAOLD" "alice" "dev" "222222222222") true;
     SlackReport
       (remediated_comment "AKIAOLD" "alice" "dev" "222222222222"
          +:+ " (https://jira.example.com/browse/SEC-1)") "222222222222";
     SetRemediated "222222222222" "AKIAOLD"] ∧
  trace (main prod_session_raises sample_config true two_overdue_table) =
    [LogException (ErrorWhileDisabling "AKIAOLD" "alice" "prod" "111111111111");
     DisableKey "alice" "AKIAOLD";
     JiraRemediate (Some "SEC-1")
       (remediated_comment "AKIAOLD" "alice" "dev" "222222222222") true;
     SlackReport
       (remediated_comment "AKIAOLD" "alice" "dev" "222222222222"
          +:+ " (https://jira.example.com/browse/SEC-1)") "222222222222";
     SetRemediated "222222222222" "AKIAOLD"].
Proof. split; [|split]; vm_compute; reflexivity. Qed.


(** The warning block emits no effect of the remediation branch. *)
Lemma notify_trace (env : Env) (config : Config) (account : string)
    (issue : Issue) (d : Z) (w : State) :
  ∃ l, trace (world_of (notify env config account issue d w)) = trace w ++ l ∧
       Forall (λ e, is_remediation_effect e = false) l.
Proof.
  unfold notify. run_step.
  destruct (env_slack_ok env _ account); simpl;
    [|exists []; by rewrite app_nil_r].
  destruct (env_jira_update_ok env _ _); simpl;
    [|eexists [_]; split; [done|]; by repeat constructor].
  destruct (env_write_ok env _); simpl.
  - eexists [_; _; _]. rewrite <- !app_assoc. split; [done|]. by repeat constructor.
  - eexists [_; _]. rewrite <- !app_assoc. split; [done|]. by repeat constructor.
Qed.

(** C7 (as the code has it): for an issue that no exclusion skips, one day
    before the end of the retention the pass warns, skips or stops on the
    notification date, and no effect of the remediation branch occurs; from
    the end of the retention on, when the notification date parses, the
    remediation branch runs unless the warning branch is taken first. *)
Theorem remediation_gate
    (env : Env) (config : Config) (batch : bool) (account n : string)
    (issue : Issue) (w : State) :
  in_whitelist config account (username issue) = false →
  in_whitelist config account (issue_id issue) = false →
  reported (timestamps issue) ≠ None →
  remediated (timestamps issue) = None →
  let age := days (now config - timestamp_as_datetime issue) in
  let retention := remediation_retention_period config in
  (age = retention - 1 →
   ∃ l, trace (world_of (process_issue env config batch account n issue w))
          = trace w ++ l ∧
        Forall (λ e, is_remediation_effect e = false) l) ∧
  (age >= retention →
   ∀ notified,
     env_parse_date env (slack_notified_date (timestamps issue)) = Some notified →
     process_issue env config batch account n issue w =
       if bool_decide (retention - age ∈ remediation_warning_days config)
          && bool_decide (days (now config - notified) > 0)
       then notify env config account issue (retention - age) w
       else try_remediate env config batch account n issue w).
Proof.
  intros Hu Hk Hrep Hrem age retention.
  assert (Hstep : process_issue env config batch account n issue w =
            match env_parse_date env (slack_notified_date (timestamps issue)) with
            | None => Raised w
            | Some notified =>
                if bool_decide (retention - age ∈ remediation_warning_days config)
                   && bool_decide (days (now config - notified) > 0)
                then notify env config account issue (retention - age) w
                else if bool_decide (age >= retention)
                     then try_remediate env config batch account n issue w
                     else tell (Skipping (issue_id issue) (username issue)
                                         (Countdown (retention - age))) w
            end).
  { unfold process_issue. rewrite Hu, Hk. simpl.
    rewrite decide_False by done. rewrite decide_True by done.
    subst age retention. simpl.
    destruct (env_parse_date env _); [|done].
    destruct (_ && _); [done|]. by destruct (bool_decide _). }
  split.
  - intros Hage. rewrite Hstep.
    destruct (env_parse_date env _) as [notified|];
      [|exists []; simpl; by rewrite app_nil_r].
    destruct (_ && _).
    + apply notify_trace.
    + rewrite bool_decide_eq_false_2 by lia. run_step.
      eexists [_]. split; [done|]. by repeat constructor.
  - intros Hage notified Hparse. rewrite Hstep, Hparse.
    destruct (_ && _); [done|]. by rewrite bool_decide_eq_true_2.
Qed.

(** C7, as stated, fails: the retention of the key of carol ends today and
    zero is one of the warning days; the pass sends the warning and does
    not attempt the remediation. *)
Lemma warning_preempts_remediation :
  let env := sample_env (λ _ _, true) (λ _ _, true) in
  due_today_table !! ("111111111111", "AKIADUE") = Some due_today_row ∧
  days (now sample_config - updated (row_timestamps due_today_row))
    = remediation_retention_period sample_config ∧
  trace (main env sample_config true due_today_table) =
    [SlackReport (warning_comment "AKIADUE" 0) "111111111111";
     JiraUpdate (Some "SEC-3") (warning_comment "AKIADUE" 0);
     SetNotified "111111111111" "AKIADUE"] ∧
  Forall (λ e, is_remediation_effect e = false)
         (trace (main env sample_config true due_today_table)).
Proof.
  intros env.
  assert (E : trace (main env sample_config true due_today_table) =
    [SlackReport (warning_comment "AKIADUE" 0) "111111111111";
     JiraUpdate (Some "SEC-3") (warning_comment "AKIADUE" 0);
     SetNotified "111111111111" "AKIADUE"]) by (vm_compute; reflexivity).
  split; [vm_compute; reflexivity|]. split; [vm_compute; reflexivity|].
  split; [exact E|]. rewrite E. by repeat constructor.
Qed.


(** *** The properties on the scenarios *)

Lemma failed_remediation_is_marked_remediated_witness :
  let env := sample_env (λ _ _, true) (λ _ _, false) in
  let w : State := mkWorld overdue_table [] in
  let comment := failed_comment "AKIAOLD" "alice" "prod" "111111111111" in
  let t' := set_status_remediated (stamp env sample_config) overdue_table
                                  overdue_issue in
  (true = true ∨ env_confirm env (confirm_prompt "AKIAOLD" "alice") = true) ∧
  env_session env "111111111111" = HasSession ∧
  env_disable_ok env "alice" "AKIAOLD" = false ∧
  account_id overdue_issue = "111111111111" ∧
  env_jira_remediate_ok env (Some "SEC-1") comment false = true ∧
  env_slack_ok env (slack_message env comment (Some "SEC-1")) "111111111111" = true ∧
  env_write_ok env "AKIAOLD" = true ∧
  try_remediate env sample_config true "111111111111" "prod" overdue_issue w =
    Done tt (mkWorld t'
       ([] ++ []
          ++ [LogException FailedToDisable;
              JiraRemediate (Some "SEC-1") comment false;
              SlackReport (slack_message env comment (Some "SEC-1")) "111111111111";
              SetRemediated "111111111111" "AKIAOLD"])) ∧
  comment ≠ remediated_comment "AKIAOLD" "alice" "prod" "111111111111" ∧
  (∀ r, overdue_table !! key_of overdue_issue = Some r →
        t' !! key_of overdue_issue = Some (remediated_row (stamp env sample_config) r)) ∧
  (∀ j, j ∈ get_account_open_issues t' "111111111111" →
        issue_id j ≠ "AKIAOLD").
Proof.
  intros env w comment t'.
  assert (H1 : true = true ∨ env_confirm env (confirm_prompt "AKIAOLD" "alice") = true)
    by (left; reflexivity).
  assert (H2 : env_session env "111111111111" = HasSession) by reflexivity.
  assert (H3 : env_disable_ok env "alice" "AKIAOLD" = false) by reflexivity.
  assert (H4 : account_id overdue_issue = "111111111111") by reflexivity.
  assert (H5 : env_jira_remediate_ok env (Some "SEC-1") comment false = true)
    by reflexivity.
  assert (H6 : env_slack_ok env (slack_message env comment (Some "SEC-1"))
                 "111111111111" = true) by reflexivity.
  assert (H7 : env_write_ok env "AKIAOLD" = true) by reflexivity.
  exact (conj H1 (conj H2 (conj H3 (conj H4 (conj H5 (conj H6 (conj H7
    (failed_remediation_is_marked_remediated env sample_config true
       "111111111111" "prod" overdue_issue w H1 H2 H3 H4 H5 H6 H7)))))))).
Defined.

Lemma remediation_gate_witness :
  let env := sample_env (λ _ _, true) (λ _ _, true) in
  let w : State := mkWorld overdue_table [] in
  in_whitelist sample_config "111111111111" (username overdue_issue) = false ∧
  in_whitelist sample_config "111111111111" (issue_id overdue_issue) = false ∧
  reported (timestamps overdue_issue) ≠ None ∧
  remediated (timestamps overdue_issue) = None ∧
  process_issue env sample_config true "111111111111" "prod" overdue_issue w
    = try_remediate env sample_config true "111111111111" "prod" overdue_issue w ∧
  ∃ l, trace (world_of (process_issue env sample_config true "111111111111"
                                      "prod" day_before_issue w))
         = trace w ++ l ∧
       Forall (λ e, is_remediation_effect e = false) l.
Proof.
  intros env w.
  assert (H1 : in_whitelist sample_config "111111111111" (username overdue_issue)
               = false) by reflexivity.
  assert (H2 : in_whitelist sample_config "111111111111" (issue_id overdue_issue)
               = false) by reflexivity.
  assert (H3 : reported (timestamps overdue_issue) ≠ None) by (simpl; discriminate).
  assert (H4 : remediated (timestamps overdue_issue) = None) by reflexivity.
  assert (Hage : days (now sample_config - timestamp_as_datetime overdue_issue)
                 >= remediation_retention_period sample_config)
    by (vm_compute; discriminate).
  assert (H3' : reported (timestamps day_before_issue) ≠ None)
    by (simpl; discriminate).
  assert (Hage' : days (now sample_config - timestamp_as_datetime day_before_issue)
                  = remediation_retention_period sample_config - 1)
    by (vm_compute; reflexivity).
  destruct (remediation_gate env sample_config true "111111111111" "prod"
              overdue_issue w H1 H2 H3 H4) as [_ Hb].
  destruct (remediation_gate env sample_config true "111111111111" "prod"
              day_before_issue w eq_refl eq_refl H3' eq_refl) as [Ha _].
  exact (conj H1 (conj H2 (conj H3 (conj H4
    (conj (Hb Hage (18 * day) eq_refl) (Ha Hage')))))).
Defined.


(** *** Further properties of the pass *)

Lemma process_issue_not_excluded (env : Env) (config : Config) (batch : bool)
    (account n : string) (issue : Issue) (w : State) :
  not_excluded config account issue →
  let age := days (now config - timestamp_as_datetime issue) in
  let retention := remediation_retention_period config in
  process_issue env config batch account n issue w =
    match env_parse_date env (slack_notified_date (timestamps issue)) with
    | None => Raised w
    | Some notified =>
        if bool_decide (retention - age ∈ remediation_warning_days config)
           && bool_decide (days (now config - notified) > 0)
        then notify env config account issue (retention - age) w
        else if bool_decide (age >= retention)
             then try_remediate env config batch account n issue w
             else tell (Skipping (issue_id issue) (username issue)
                                 (Countdown (retention - age))) w
    end.
Proof.
  intros (Hu & Hk & Hrep & Hrem) age retention.
  unfold process_issue. rewrite Hu, Hk. simpl.
  rewrite decide_False by done. rewrite decide_True by done.
  subst age retention. simpl.
  destruct (env_parse_date env _); [|done].
  destruct (_ && _); [done|]. by destruct (bool_decide _).
Qed.

(** An issue that an exclusion applies to (user or key on the whitelist,
    never reported, already remediated) is skipped with one log line: no
    message, no write and no exception, however old it is and whatever its
    notification date looks like. *)
Theorem excluded_issue_is_skipped
    (env : Env) (config : Config) (batch : bool) (account n : string)
    (issue : Issue) (w : State) :
  excluded config account issue →
  ∃ why, (why = InWhitelist ∨ why = NotReported ∨ why = AlreadyRemediated) ∧
    process_issue env config batch account n issue w =
      Done tt (mkWorld (store w)
                 (trace w ++ [Skipping (issue_id issue) (username issue) why])).
Proof.
  intros H. unfold process_issue.
  destruct (in_whitelist config account (username issue)) eqn:Hu; simpl;
    [exists InWhitelist; eauto|].
  destruct (in_whitelist config account (issue_id issue)) eqn:Hk; simpl;
    [exists InWhitelist; eauto|].
  case_decide as Hrep; [exists NotReported; eauto|].
  case_decide as Hrem; [|exists AlreadyRemediated; eauto].
  destruct H as [?|[?|[?|?]]]; congruence.
Qed.

(** No second warning within a day: when less than a full day lies
    between the last notification and now (or the notification lies in the
    future), no warning is sent, whatever the warning days are; the issue
    is remediated if its retention is over and skipped otherwise. *)
Theorem recent_notification_is_not_repeated
    (env : Env) (config : Config) (batch : bool) (account n : string)
    (issue : Issue) (notified : Z) (w : State) :
  not_excluded config account issue →
  env_parse_date env (slack_notified_date (timestamps issue)) = Some notified →
  now config - notified < 86400 →
  let age := days (now config - timestamp_as_datetime issue) in
  let retention := remediation_retention_period config in
  process_issue env config batch account n issue w =
    if bool_decide (age >= retention)
    then try_remediate env config batch account n issue w
    else Done tt (mkWorld (store w)
                    (trace w ++ [Skipping (issue_id issue) (username issue)
                                          (Countdown (retention - age))])).
Proof.
  intros Hne Hparse Hrecent age retention.
  rewrite (process_issue_not_excluded _ _ _ _ _ _ _ Hne), Hparse.
  assert (Hd : days (now config - notified) <= 0).
  { unfold days. apply Z.lt_succ_r. apply Z.div_lt_upper_bound; lia. }
  rewrite (bool_decide_eq_false_2 (days (now config - notified) > 0)) by lia.
  rewrite andb_false_r. done.
Qed.

(** Inside the retention, on a day that is no warning day, the issue is
    skipped and the log line carries the positive number of days left. *)
Theorem grace_period_is_skipped
    (env : Env) (config : Config) (batch : bool) (account n : string)
    (issue : Issue) (notified : Z) (w : State) :
  not_excluded config account issue →
  env_parse_date env (slack_notified_date (timestamps issue)) = Some notified →
  let age := days (now config - timestamp_as_datetime issue) in
  let retention := remediation_retention_period config in
  age < retention →
  retention - age ∉ remediation_warning_days config →
  retention - age > 0 ∧
  process_issue env config batch account n issue w =
    Done tt (mkWorld (store w)
               (trace w ++ [Skipping (issue_id issue) (username issue)
                                     (Countdown (retention - age))])).
Proof.
  intros Hne Hparse age retention Hage Hday. split; [lia|].
  rewrite (process_issue_not_excluded _ _ _ _ _ _ _ Hne), Hparse.
  fold age retention.
  rewrite (bool_decide_eq_false_2 (retention - age ∈ _)) by done. simpl.
  by rewrite bool_decide_eq_false_2 by lia.
Qed.

(** A remediation that succeeds: the key is disabled, the success comment
    goes to the ticket, which is reassigned, and to Slack, and the issue is
    marked Remediated. *)
Theorem successful_remediation
    (env : Env) (config : Config) (batch : bool) (account n : string)
    (issue : Issue) (w : State) :
  batch = true ∨ env_confirm env (confirm_prompt (issue_id issue) (username issue)) = true →
  env_session env account = HasSession →
  env_disable_ok env (username issue) (issue_id issue) = true →
  let comment := remediated_comment (issue_id issue) (username issue) n account in
  env_jira_remediate_ok env (ticket issue) comment true = true →
  env_slack_ok env (slack_message env comment (ticket issue)) account = true →
  env_write_ok env (issue_id issue) = true →
  try_remediate env config batch account n issue w =
    Done tt (mkWorld (set_status_remediated (stamp env config) (store w) issue)
       (trace w
          ++ (if batch then []
              else [Confirm (confirm_prompt (issue_id issue) (username issue))])
          ++ [DisableKey (username issue) (issue_id issue);
              JiraRemediate (ticket issue) comment true;
              SlackReport (slack_message env comment (ticket issue)) account;
              SetRemediated account (issue_id issue)])).
Proof.
  intros Hgo Hs Hd comment Hj Hsl Hw.
  unfold try_remediate, remediate. rewrite Hs, Hd. fold comment.
  destruct batch.
  - run_step. rewrite Hj. simpl. rewrite Hsl. simpl. rewrite Hw. simpl.
    by rewrite <- !app_assoc.
  - destruct Hgo as [?|Hc]; [done|]. run_step. rewrite Hc. simpl.
    rewrite Hj. simpl. rewrite Hsl. simpl. rewrite Hw. simpl.
    by rewrite <- !app_assoc.
Qed.

(** Outside batch mode a declined confirmation leaves the key alone: the
    prompt is the only effect. *)
Theorem declined_confirmation_does_nothing
    (env : Env) (config : Config) (account n : string) (issue : Issue) (w : State) :
  env_confirm env (confirm_prompt (issue_id issue) (username issue)) = false →
  try_remediate env config false account n issue w =
    Done tt (mkWorld (store w)
               (trace w ++ [Confirm (confirm_prompt (issue_id issue)
                                                    (username issue))])).
Proof.
  intros Hc. unfold try_remediate, remediate. run_step. by rewrite Hc.
Qed.

(** When the session of the account cannot be established (it is None or
    opening it raises) the key is not disabled, the ticket is not touched
    and the table is not written, in batch mode and outside it: the effects
    are the prompt (outside batch mode) and, when the remediation went ahead
    and opening the session raised, the logged exception. *)
Theorem no_session_no_remediation
    (env : Env) (config : Config) (batch : bool) (account n : string)
    (issue : Issue) (w : State) :
  env_session env account ≠ HasSession →
  try_remediate env config batch account n issue w =
    Done tt (mkWorld (store w)
       (trace w
          ++ (if batch then []
              else [Confirm (confirm_prompt (issue_id issue) (username issue))])
          ++ (if batch || env_confirm env (confirm_prompt (issue_id issue)
                                                          (username issue))
              then match env_session env account with
                   | AccountRaises =>
                       [LogException (ErrorWhileDisabling (issue_id issue)
                                        (username issue) n account)]
                   | _ => []
                   end
              else []))).
Proof.
  intros Hs. unfold try_remediate, remediate.
  destruct batch; simpl.
  - run_step. destruct (env_session env account); simpl; try done.
    destruct w; simpl. by rewrite app_nil_r.
  - run_step. destruct (env_confirm env _); simpl; [|done].
    destruct (env_session env account); simpl; try done.
    by rewrite <- app_assoc.
Qed.


(** The ticket client failing after the key was disabled, in batch mode or
    after a confirmed prompt: the exception is logged under the issue and
    the table is not written, so the issue stays listed as open although
    its key is disabled. *)
Theorem ticket_failure_after_disable
    (env : Env) (config : Config) (batch : bool) (account n : string)
    (issue : Issue) (w : State) :
  batch = true ∨ env_confirm env (confirm_prompt (issue_id issue) (username issue)) = true →
  env_session env account = HasSession →
  env_disable_ok env (username issue) (issue_id issue) = true →
  env_jira_remediate_ok env (ticket issue)
    (remediated_comment (issue_id issue) (username issue) n account) true = false →
  try_remediate env config batch account n issue w =
    Done tt (mkWorld (store w)
       (trace w
          ++ (if batch then []
              else [Confirm (confirm_prompt (issue_id issue) (username issue))])
          ++ [DisableKey (username issue) (issue_id issue);
              LogException (ErrorWhileDisabling (issue_id issue) (username issue)
                                                 n account)])).
Proof.
  intros Hgo Hs Hd Hj. unfold try_remediate, remediate. rewrite Hs, Hd.
  destruct batch.
  - run_step. rewrite Hj. simpl. by rewrite <- app_assoc.
  - destruct Hgo as [?|Hc]; [done|]. run_step. rewrite Hc. simpl.
    rewrite Hj. simpl. by rewrite <- !app_assoc.
Qed.

(** An exception leaves the processing of an issue only from the parse of
    the notification date or from the warning branch: the skips and the
    remediation branch never raise. *)
Theorem exceptions_escape_only_from_the_warning
    (env : Env) (config : Config) (batch : bool) (account n : string)
    (issue : Issue) (w w' : State) :
  process_issue env config batch account n issue w = Raised w' →
  not_excluded config account issue ∧
  ((env_parse_date env (slack_notified_date (timestamps issue)) = None ∧ w' = w) ∨
   ∃ notified days_left,
     env_parse_date env (slack_notified_date (timestamps issue)) = Some notified ∧
     days (now config - notified) > 0 ∧
     days_left ∈ remediation_warning_days config ∧
     notify env config account issue days_left w = Raised w').
Proof.
  intros H.
  assert (Hne : not_excluded config account issue).
  { unfold process_issue, not_excluded in *.
    destruct (in_whitelist config account (username issue)); [done|].
    destruct (in_whitelist config account (issue_id issue)); [done|].
    simpl in H. case_decide; [done|]. case_decide; [|done]. done. }
  split; [done|].
  rewrite (process_issue_not_excluded _ _ _ _ _ _ _ Hne) in H.
  destruct (env_parse_date env _) as [notified|]; [|left; by injection H].
  right. destruct (bool_decide (_ ∈ _)) eqn:Hin; simpl in H.
  - destruct (bool_decide (_ > 0)) eqn:Hd; simpl in H.
    + apply bool_decide_eq_true_1 in Hin, Hd. eauto 10.
    + destruct (bool_decide (_ >= _)); [|done].
      destruct (try_remediate_never_raises env config batch account n issue w)
        as [w0 E]. congruence.
  - destruct (bool_decide (_ >= _)); [|done].
    destruct (try_remediate_never_raises env config batch account n issue w)
      as [w0 E]. congruence.
Qed.

(** A notification date that does not parse ends the loop at this issue,
    before anything is done for it, even when its retention is over: the
    issues after it are not processed. *)
Theorem unparsed_date_stops_the_loop
    (env : Env) (config : Config) (batch : bool) (account n : string)
    (issue : Issue) (issues : list Issue) (w : State) :
  not_excluded config account issue →
  env_parse_date env (slack_notified_date (timestamps issue)) = None →
  process_issues env config batch account n (issue :: issues) w = Raised w.
Proof.
  intros Hne Hparse. apply process_issues_raise.
  by rewrite (process_issue_not_excluded _ _ _ _ _ _ _ Hne), Hparse.
Qed.

(** A warning whose ticket update fails has already gone to Slack; the
    notification is not recorded in the table and the exception leaves the
    loop. *)
Theorem warning_sent_but_not_recorded
    (env : Env) (config : Config) (account : string) (issue : Issue)
    (days_left : Z) (w : State) :
  env_slack_ok env (warning_comment (issue_id issue) days_left) account = true →
  env_jira_update_ok env (ticket issue)
    (warning_comment (issue_id issue) days_left) = false →
  notify env config account issue days_left w =
    Raised (mkWorld (store w)
              (trace w ++ [SlackReport (warning_comment (issue_id issue) days_left)
                                       account])).
Proof.
  intros Hs Hj. unfold notify. run_step. rewrite Hs. simpl. by rewrite Hj.
Qed.

(** *** What the pass does to the table *)

Ltac split_ifs :=
  repeat (simpl;
          match goal with
          | |- context [if ?b then _ else _] => destruct b
          end).

Lemma notify_store (env : Env) (config : Config) (account : string)
    (issue : Issue) (d : Z) (w : State) :
  store (world_of (notify env config account issue d w)) = store w ∨
  store (world_of (notify env config account issue d w))
    = set_status_notified (stamp env config) (store w) issue.
Proof. unfold notify. run_step. split_ifs; simpl; auto. Qed.

Lemma try_remediate_store (env : Env) (config : Config) (batch : bool)
    (account n : string) (issue : Issue) (w : State) :
  store (world_of (try_remediate env config batch account n issue w)) = store w ∨
  store (world_of (try_remediate env config batch account n issue w))
    = set_status_remediated (stamp env config) (store w) issue.
Proof.
  unfold try_remediate, remediate. run_step.
  destruct batch; run_step; destruct (env_session env account);
    split_ifs; simpl; auto.
Qed.

(** One issue: the table is left as it was, or the row of the issue is
    marked notified or remediated. *)
Lemma process_issue_store (env : Env) (config : Config) (batch : bool)
    (account n : string) (issue : Issue) (w : State) :
  let w' := world_of (process_issue env config batch account n issue w) in
  store w' = store w ∨
  store w' = set_status_notified (stamp env config) (store w) issue ∨
  store w' = set_status_remediated (stamp env config) (store w) issue.
Proof.
  simpl. unfold process_issue.
  destruct (_ || _); [by left|]. case_decide; [by left|].
  case_decide; [|by left].
  destruct (env_parse_date env _); [|by left].
  destruct (_ && _).
  - destruct (notify_store env config account issue
                (remediation_retention_period config
                 - days (now config - timestamp_as_datetime issue)) w); auto.
  - destruct (bool_decide _); [|by left].
    destruct (try_remediate_store env config batch account n issue w); auto.
Qed.

Lemma status_step_refl (r : Row) : status_step r r.
Proof. by left. Qed.

Lemma table_step_refl (t : Table) : table_step t t.
Proof. intros k. destruct (t !! k) as [r|]; [|done]. exists r. split; [done|by left]. Qed.

Lemma table_step_trans (t1 t2 t3 : Table) :
  table_step t1 t2 → table_step t2 t3 → table_step t1 t3.
Proof.
  intros H12 H23 k. specialize (H12 k). specialize (H23 k).
  destruct (t1 !! k) as [r1|].
  - destruct H12 as (r2 & E2 & S12). rewrite E2 in H23.
    destruct H23 as (r3 & E3 & S23). exists r3. split; [done|].
    unfold status_step in *. destruct S12 as [?|[?|?]], S23 as [?|[?|?]];
      auto; try (left; congruence); try (right; left; congruence);
      right; right; congruence.
  - by rewrite H12 in H23.
Qed.

Lemma table_step_alter (f : Row → Row) (k : string * string) (t : Table) :
  (∀ r, status_step r (f r)) → table_step t (alter f k t).
Proof.
  intros Hf k'. destruct (decide (k = k')) as [<-|Hne].
  - rewrite lookup_alter_eq. destruct (t !! k) as [r|]; [|done].
    exists (f r). done.
  - rewrite lookup_alter_ne by done. destruct (t !! k') as [r|]; [|done].
    exists r. split; [done|by left].
Qed.

Lemma process_issue_step (env : Env) (config : Config) (batch : bool)
    (account n : string) (issue : Issue) (w : State) :
  table_step (store w)
             (store (world_of (process_issue env config batch account n issue w))).
Proof.
  destruct (process_issue_store env config batch account n issue w)
    as [->|[->| ->]].
  - apply table_step_refl.
  - apply table_step_alter. intros r. right; left. done.
  - apply table_step_alter. intros r. right; right. done.
Qed.

Lemma process_issues_step (env : Env) (config : Config) (batch : bool)
    (account n : string) (issues : list Issue) (w : State) :
  table_step (store w)
             (store (world_of (process_issues env config batch account n issues w))).
Proof.
  revert w. induction issues as [|i issues IH]; intros w; [apply table_step_refl|].
  simpl. unfold mbind, M_bind.
  pose proof (process_issue_step env config batch account n i w) as H.
  destruct (process_issue env config batch account n i w) as [[] w1|w1|w1];
    simpl in *; try done.
  eapply table_step_trans; [exact H|apply IH].
Qed.

Lemma process_accounts_step (env : Env) (config : Config) (batch : bool)
    (accounts : list (string * string)) (w : State) :
  table_step (store w)
             (store (world_of (process_accounts env config batch accounts w))).
Proof.
  revert w. induction accounts as [|[a n] accounts IH]; intros w;
    [apply table_step_refl|].
  simpl. run_step. destruct (env_read_ok env a); simpl; [|apply table_step_refl].
  pose proof (process_issues_step env config batch a n
                (get_account_open_issues (store w) a) w) as H.
  destruct (process_issues env config batch a n _ w) as [[] w1|w1|w1];
    simpl in *; try done.
  eapply table_step_trans; [exact H|apply IH].
Qed.

(** Whatever the collaborators do, a pass neither adds nor removes an
    issue, and a status changes only to Notified or Remediated. *)
Theorem pass_only_notifies_or_remediates
    (env : Env) (config : Config) (batch : bool) (t : Table) :
  table_step t (store (main env config batch t)).
Proof.
  unfold main, clean_iam_access_keys. run_step.
  destruct (env_setup_ok env); simpl; [|apply table_step_refl].
  pose proof (process_accounts_step env config batch
                (remediation_accounts config) (mkWorld t [])) as H.
  destruct (process_accounts env config batch _ _) as [[] w|w|w]; simpl in *; done.
Qed.

Lemma process_issues_reach (env : Env) (config : Config) (batch : bool)
    (account n : string) (issues : list Issue) (t0 : Table) (w : State) :
  (∀ i, i ∈ issues → ¬ out_of_reach config t0 (key_of i)) →
  (∀ k, out_of_reach config t0 k → store w !! k = t0 !! k) →
  ∀ k, out_of_reach config t0 k →
       store (world_of (process_issues env config batch account n issues w)) !! k
       = t0 !! k.
Proof.
  revert w. induction issues as [|i issues IH]; intros w Hin Hinv k Hk;
    [by apply Hinv|].
  simpl. unfold mbind, M_bind.
  assert (Hone : ∀ k, out_of_reach config t0 k →
            store (world_of (process_issue env config batch account n i w)) !! k
            = t0 !! k).
  { intros k' Hk'.
    assert (Hne : key_of i ≠ k').
    { intros <-. by apply (Hin i); [apply list_elem_of_here|]. }
    destruct (process_issue_store env config batch account n i w)
      as [->|[->| ->]]; [by apply Hinv|..];
      unfold set_status_notified, set_status_remediated;
      rewrite lookup_alter_ne by done; by apply Hinv. }
  destruct (process_issue env config batch account n i w) as [[] w1|w1|w1];
    simpl in *; try by apply Hone.
  apply IH; [|done|done]. intros j Hj. apply Hin. by apply elem_of_cons; right.
Qed.

Lemma process_accounts_reach (env : Env) (config : Config) (batch : bool)
    (accounts : list (string * string)) (t0 : Table) (w : State) :
  accounts.*1 ⊆ (remediation_accounts config).*1 →
  (∀ k, out_of_reach config t0 k → store w !! k = t0 !! k) →
  ∀ k, out_of_reach config t0 k →
       store (world_of (process_accounts env config batch accounts w)) !! k
       = t0 !! k.
Proof.
  revert w. induction accounts as [|[a n] accounts IH]; intros w Hsub Hinv k Hk;
    [by apply Hinv|].
  simpl. run_step. destruct (env_read_ok env a); simpl; [|by apply Hinv].
  assert (Hissues : ∀ i, i ∈ get_account_open_issues (store w) a →
            ¬ out_of_reach config t0 (key_of i)).
  { intros i (id & r & Hr & Ho & ->)%elem_of_open_key_issues Hout.
    unfold key_of in Hout. simpl in Hout.
    pose proof (Hinv _ Hout) as E. rewrite Hr in E.
    destruct Hout as [Hacc|Hclosed].
    - apply Hacc, Hsub. simpl. apply list_elem_of_here.
    - symmetry in E. apply Hclosed in E. congruence. }
  pose proof (process_issues_reach env config batch a n
                (get_account_open_issues (store w) a) t0 w Hissues Hinv) as H.
  destruct (process_issues env config batch a n _ w) as [[] w1|w1|w1];
    simpl in *; try by apply H.
  apply IH; [|done|done]. intros x Hx. apply Hsub. simpl.
  by apply elem_of_cons; right.
Qed.

(** A pass leaves alone every row of an account that is not configured for
    remediation and every row that the table does not list as open
    (Remediated or Resolved): such rows are the same after the pass,
    whatever the collaborators do. *)
Theorem rows_out_of_reach_are_untouched
    (env : Env) (config : Config) (batch : bool) (t : Table)
    (k : string * string) :
  out_of_reach config t k →
  store (main env config batch t) !! k = t !! k.
Proof.
  intros Hk. unfold main, clean_iam_access_keys. run_step.
  destruct (env_setup_ok env); simpl; [|done].
  pose proof (process_accounts_reach env config batch
                (remediation_accounts config) t (mkWorld t [])
                (reflexivity _) (λ _ _, eq_refl) k Hk) as H.
  destruct (process_accounts env config batch _ _) as [[] w|w|w]; simpl in *; done.
Qed.

Lemma process_accounts_idle (env : Env) (config : Config) (batch : bool)
    (accounts : list (string * string)) (w : State) :
  (∀ a, a ∈ accounts.*1 → env_read_ok env a = true) →
  (∀ a, a ∈ accounts.*1 → get_account_open_issues (store w) a = []) →
  process_accounts env config batch accounts w = Done tt w.
Proof.
  induction accounts as [|[a n] accounts IH]; intros Hread Hnone; [done|].
  simpl. run_step.
  rewrite Hread by (simpl; apply list_elem_of_here). simpl.
  rewrite Hnone by (simpl; apply list_elem_of_here). simpl.
  apply IH; intros b Hb; [apply Hread|apply Hnone]; simpl;
    by apply elem_of_cons; right.
Qed.

(** With no open issue in the configured accounts the pass reaches no
    issue and changes nothing: no issue is skipped, no Slack message or
    ticket update is sent, no prompt is shown, no key is disabled, the table
    is not written and no exception is logged.  (The debug line of line 38,
    one per account, is not an effect of the model.) *)
Theorem nothing_open_nothing_done
    (env : Env) (config : Config) (batch : bool) (t : Table) :
  env_setup_ok env = true →
  (∀ a, a ∈ (remediation_accounts config).*1 → env_read_ok env a = true) →
  (∀ a, a ∈ (remediation_accounts config).*1 → get_account_open_issues t a = []) →
  main env config batch t = mkWorld t [].
Proof.
  intros Hs Hread Hnone. unfold main, clean_iam_access_keys. run_step.
  rewrite Hs. simpl. by rewrite process_accounts_idle.
Qed.

(** Whatever goes wrong inside the remediation of an issue (the session,
    the IAM call, the ticket, Slack, the table), the loop goes on with the
    next issue. *)
Theorem remediation_failure_does_not_stop_the_loop
    (env : Env) (config : Config) (batch : bool) (account n : string)
    (issue : Issue) (issues : list Issue) (notified : Z) (w : State) :
  not_excluded config account issue →
  env_parse_date env (slack_notified_date (timestamps issue)) = Some notified →
  bool_decide (remediation_retention_period config
               - days (now config - timestamp_as_datetime issue)
               ∈ remediation_warning_days config)
  && bool_decide (days (now config - notified) > 0) = false →
  ∃ w1, process_issue env config batch account n issue w = Done tt w1 ∧
        process_issues env config batch account n (issue :: issues) w
        = process_issues env config batch account n issues w1.
Proof.
  intros Hne Hparse Hwarn.
  assert (H : ∃ w1, process_issue env config batch account n issue w = Done tt w1).
  { rewrite (process_issue_not_excluded _ _ _ _ _ _ _ Hne), Hparse, Hwarn.
    destruct (bool_decide (_ >= _)); [apply try_remediate_never_raises|].
    run_step. eauto. }
  destruct H as [w1 H]. exists w1. split; [done|].
  simpl. unfold mbind, M_bind. by rewrite H.
Qed.

Lemma whole_days (seconds retention : Z) :
  days seconds >= retention ↔ seconds >= retention * 86400.
Proof.
  unfold days. split; intros H.
  - apply Z.le_ge. apply Z.ge_le in H.
    transitivity (86400 * (seconds / 86400)).
    + lia.
    + apply Z.mul_div_le. lia.
  - apply Z.le_ge. apply Z.div_le_lower_bound; lia.
Qed.

(** Nothing is remediated inside the retention, which counts whole days:
    while fewer than [retention * 86400] seconds have passed since the
    issue was updated, an issue is at most warned about or skipped, whatever
    the collaborators answer. *)
Theorem nothing_is_remediated_inside_the_retention
    (env : Env) (config : Config) (batch : bool) (account n : string)
    (issue : Issue) (w : State) :
  now config - timestamp_as_datetime issue
    < remediation_retention_period config * 86400 →
  ∃ l, trace (world_of (process_issue env config batch account n issue w))
         = trace w ++ l ∧
       Forall (λ e, is_remediation_effect e = false) l.
Proof.
  intros Hage.
  assert (Hskip : ∀ why, ∃ l,
            trace (world_of (tell (Skipping (issue_id issue) (username issue) why) w))
              = trace w ++ l ∧
            Forall (λ e, is_remediation_effect e = false) l).
  { intros why. eexists [_]. split; [done|]. by repeat constructor. }
  unfold process_issue.
  destruct (_ || _); [apply Hskip|].
  case_decide; [apply Hskip|].
  case_decide; [|apply Hskip].
  destruct (env_parse_date env _); [|exists []; simpl; by rewrite app_nil_r].
  destruct (_ && _); [apply notify_trace|].
  case_bool_decide as Hge; [|apply Hskip].
  apply whole_days in Hge. lia.
Qed.

(** *** The further properties on the scenarios *)

Lemma overdue_not_excluded :
  not_excluded sample_config "111111111111" overdue_issue.
Proof. repeat split; try reflexivity. simpl. discriminate. Defined.

Lemma excluded_issue_is_skipped_witness :
  excluded sample_config "111111111111" unreported_issue ∧
  ∃ why, (why = InWhitelist ∨ why = NotReported ∨ why = AlreadyRemediated) ∧
    process_issue (sample_env (λ _ _, true) (λ _ _, true)) sample_config true
                  "111111111111" "prod" unreported_issue (mkWorld overdue_table [])
    = Done tt (mkWorld overdue_table
                 ([] ++ [Skipping "AKIANOREP" "erin" why])).
Proof.
  assert (H1 : excluded sample_config "111111111111" unreported_issue)
    by (right; right; left; reflexivity).
  exact (conj H1
    (excluded_issue_is_skipped (sample_env (λ _ _, true) (λ _ _, true))
       sample_config true "111111111111" "prod" unreported_issue
       (mkWorld overdue_table []) H1)).
Defined.

Lemma recent_notification_is_not_repeated_witness :
  let env := scripted_env (Some (20 * day - 3600)) true HasSession true true true in
  let w : State := mkWorld overdue_table [] in
  not_excluded sample_config "111111111111" overdue_issue ∧
  env_parse_date env (slack_notified_date (timestamps overdue_issue))
    = Some (20 * day - 3600) ∧
  now sample_config - (20 * day - 3600) < 86400 ∧
  process_issue env sample_config true "111111111111" "prod" overdue_issue w
    = try_remediate env sample_config true "111111111111" "prod" overdue_issue w.
Proof.
  intros env w.
  assert (H2 : env_parse_date env (slack_notified_date (timestamps overdue_issue))
               = Some (20 * day - 3600)) by reflexivity.
  assert (H3 : now sample_config - (20 * day - 3600) < 86400)
    by (vm_compute; reflexivity).
  exact (conj overdue_not_excluded (conj H2 (conj H3
    (recent_notification_is_not_repeated env sample_config true "111111111111"
       "prod" overdue_issue (20 * day - 3600) w overdue_not_excluded H2 H3)))).
Defined.

Lemma grace_period_is_skipped_witness :
  let env := sample_env (λ _ _, true) (λ _ _, true) in
  let w : State := mkWorld overdue_table [] in
  not_excluded sample_config "111111111111" young_issue ∧
  env_parse_date env (slack_notified_date (timestamps young_issue))
    = Some (18 * day) ∧
  days (now sample_config - timestamp_as_datetime young_issue)
    < remediation_retention_period sample_config ∧
  (remediation_retention_period sample_config
     - days (now sample_config - timestamp_as_datetime young_issue)
     ∉ remediation_warning_days sample_config) ∧
  process_issue env sample_config true "111111111111" "prod" young_issue w
    = Done tt (mkWorld overdue_table
                 [Skipping "AKIAYOUNG" "frank" (Countdown 6)]).
Proof.
  intros env w.
  assert (H1 : not_excluded sample_config "111111111111" young_issue)
    by (repeat split; try reflexivity; simpl; discriminate).
  assert (H2 : env_parse_date env (slack_notified_date (timestamps young_issue))
               = Some (18 * day)) by reflexivity.
  assert (H3 : days (now sample_config - timestamp_as_datetime young_issue)
               < remediation_retention_period sample_config)
    by (vm_compute; reflexivity).
  assert (H4 : remediation_retention_period sample_config
               - days (now sample_config - timestamp_as_datetime young_issue)
               ∉ remediation_warning_days sample_config)
    by (intros Hin; pose proof (bool_decide_pack _ Hin) as Hb;
        vm_compute in Hb; exact Hb).
  destruct (grace_period_is_skipped env sample_config true "111111111111" "prod"
              young_issue (18 * day) w H1 H2 H3 H4) as [_ H].
  exact (conj H1 (conj H2 (conj H3 (conj H4 H)))).
Defined.

Lemma successful_remediation_witness :
  let env := sample_env (λ _ _, true) (λ _ _, true) in
  let w : State := mkWorld overdue_table [] in
  let comment := remediated_comment "AKIAOLD" "alice" "prod" "111111111111" in
  (true = true ∨ env_confirm env (confirm_prompt "AKIAOLD" "alice") = true) ∧
  env_session env "111111111111" = HasSession ∧
  env_disable_ok env "alice" "AKIAOLD" = true ∧
  env_jira_remediate_ok env (Some "SEC-1") comment true = true ∧
  env_slack_ok env (slack_message env comment (Some "SEC-1")) "111111111111" = true ∧
  env_write_ok env "AKIAOLD" = true ∧
  try_remediate env sample_config true "111111111111" "prod" overdue_issue w =
    Done tt (mkWorld (set_status_remediated (stamp env sample_config) overdue_table
                                            overdue_issue)
       [DisableKey "alice" "AKIAOLD";
        JiraRemediate (Some "SEC-1") comment true;
        SlackReport (slack_message env comment (Some "SEC-1")) "111111111111";
        SetRemediated "111111111111" "AKIAOLD"]).
Proof.
  intros env w comment.
  assert (H1 : true = true ∨ env_confirm env (confirm_prompt "AKIAOLD" "alice") = true)
    by (left; reflexivity).
  exact (conj H1 (conj eq_refl (conj eq_refl (conj eq_refl (conj eq_refl
    (conj eq_refl
      (successful_remediation env sample_config true "111111111111" "prod"
         overdue_issue w H1 eq_refl eq_refl eq_refl eq_refl eq_refl))))))).
Defined.

Lemma declined_confirmation_does_nothing_witness :
  let env := scripted_env (Some (18 * day)) false HasSession true true true in
  let w : State := mkWorld overdue_table [] in
  env_confirm env (confirm_prompt "AKIAOLD" "alice") = false ∧
  try_remediate env sample_config false "111111111111" "prod" overdue_issue w =
    Done tt (mkWorld overdue_table [Confirm (confirm_prompt "AKIAOLD" "alice")]).
Proof.
  intros env w.
  exact (conj eq_refl
    (declined_confirmation_does_nothing env sample_config "111111111111" "prod"
       overdue_issue w eq_refl)).
Defined.

Lemma no_session_no_remediation_witness :
  let env := scripted_env (Some (18 * day)) true AccountRaises true true true in
  let w : State := mkWorld overdue_table [] in
  env_session env "111111111111" ≠ HasSession ∧
  try_remediate env sample_config false "111111111111" "prod" overdue_issue w =
    Done tt (mkWorld overdue_table
       [Confirm (confirm_prompt "AKIAOLD" "alice");
        LogException (ErrorWhileDisabling "AKIAOLD" "alice" "prod" "111111111111")]).
Proof.
  intros env w.
  assert (H1 : env_session env "111111111111" ≠ HasSession) by (simpl; discriminate).
  exact (conj H1
    (no_session_no_remediation env sample_config false "111111111111" "prod"
       overdue_issue w H1)).
Defined.

Lemma ticket_failure_after_disable_witness :
  let env := scripted_env (Some (18 * day)) true HasSession true true false in
  let w : State := mkWorld overdue_table [] in
  (false = true ∨ env_confirm env (confirm_prompt "AKIAOLD" "alice") = true) ∧
  env_session env "111111111111" = HasSession ∧
  env_disable_ok env "alice" "AKIAOLD" = true ∧
  env_jira_remediate_ok env (Some "SEC-1")
    (remediated_comment "AKIAOLD" "alice" "prod" "111111111111") true = false ∧
  try_remediate env sample_config false "111111111111" "prod" overdue_issue w =
    Done tt (mkWorld overdue_table
       [Confirm (confirm_prompt "AKIAOLD" "alice");
        DisableKey "alice" "AKIAOLD";
        LogException (ErrorWhileDisabling "AKIAOLD" "alice" "prod" "111111111111")]).
Proof.
  intros env w.
  assert (H1 : false = true ∨ env_confirm env (confirm_prompt "AKIAOLD" "alice") = true)
    by (right; reflexivity).
  exact (conj H1 (conj eq_refl (conj eq_refl (conj eq_refl
    (ticket_failure_after_disable env sample_config false "111111111111" "prod"
       overdue_issue w H1 eq_refl eq_refl eq_refl))))).
Defined.

Lemma exceptions_escape_only_from_the_warning_witness :
  let env := scripted_env None true HasSession true true true in
  let w : State := mkWorld overdue_table [] in
  process_issue env sample_config true "111111111111" "prod" overdue_issue w
    = Raised w ∧
  not_excluded sample_config "111111111111" overdue_issue ∧
  ((env_parse_date env (slack_notified_date (timestamps overdue_issue)) = None
    ∧ w = w) ∨
   ∃ notified days_left,
     env_parse_date env (slack_notified_date (timestamps overdue_issue))
       = Some notified ∧
     days (now sample_config - notified) > 0 ∧
     days_left ∈ remediation_warning_days sample_config ∧
     notify env sample_config "111111111111" overdue_issue days_left w = Raised w).
Proof.
  intros env w.
  assert (H1 : process_issue env sample_config true "111111111111" "prod"
                 overdue_issue w = Raised w) by reflexivity.
  exact (conj H1
    (exceptions_escape_only_from_the_warning env sample_config true
       "111111111111" "prod" overdue_issue w w H1)).
Defined.

Lemma unparsed_date_stops_the_loop_witness :
  let env := scripted_env None true HasSession true true true in
  let w : State := mkWorld overdue_table [] in
  not_excluded sample_config "111111111111" overdue_issue ∧
  env_parse_date env (slack_notified_date (timestamps overdue_issue)) = None ∧
  process_issues env sample_config true "111111111111" "prod"
                 [overdue_issue; young_issue] w = Raised w.
Proof.
  intros env w.
  exact (conj overdue_not_excluded (conj eq_refl
    (unparsed_date_stops_the_loop env sample_config true "111111111111" "prod"
       overdue_issue [young_issue] w overdue_not_excluded eq_refl))).
Defined.

Lemma warning_sent_but_not_recorded_witness :
  let env := scripted_env (Some (18 * day)) true HasSession true false true in
  let w : State := mkWorld two_accounts_table [] in
  env_slack_ok env (warning_comment "AKIAWARN" 3) "111111111111" = true ∧
  env_jira_update_ok env (Some "SEC-2") (warning_comment "AKIAWARN" 3) = false ∧
  notify env sample_config "111111111111" warned_issue 3 w =
    Raised (mkWorld two_accounts_table
              [SlackReport (warning_comment "AKIAWARN" 3) "111111111111"]).
Proof.
  intros env w.
  exact (conj eq_refl (conj eq_refl
    (warning_sent_but_not_recorded env sample_config "111111111111" warned_issue
       3 w eq_refl eq_refl))).
Defined.

Lemma rows_out_of_reach_are_untouched_witness :
  let env := sample_env (λ _ _, true) (λ _ _, true) in
  out_of_reach sample_config mixed_table ("333333333333", "AKIAOLD") ∧
  out_of_reach sample_config mixed_table ("111111111111", "AKIADONE") ∧
  store (main env sample_config true mixed_table) !! ("333333333333", "AKIAOLD")
    = Some overdue_row ∧
  store (main env sample_config true mixed_table) !! ("111111111111", "AKIADONE")
    = Some done_row.
Proof.
  intros env.
  assert (H1 : out_of_reach sample_config mixed_table ("333333333333", "AKIAOLD")).
  { left. intros Hin. pose proof (bool_decide_pack _ Hin) as Hb.
    vm_compute in Hb. exact Hb. }
  assert (H2 : out_of_reach sample_config mixed_table ("111111111111", "AKIADONE")).
  { right. intros r Hr.
    assert (E : mixed_table !! ("111111111111", "AKIADONE") = Some done_row)
      by (vm_compute; reflexivity).
    rewrite E in Hr. injection Hr as <-. reflexivity. }
  assert (E1 : mixed_table !! ("333333333333", "AKIAOLD") = Some overdue_row)
    by (vm_compute; reflexivity).
  assert (E2 : mixed_table !! ("111111111111", "AKIADONE") = Some done_row)
    by (vm_compute; reflexivity).
  exact (conj H1 (conj H2
    (conj (eq_trans (rows_out_of_reach_are_untouched env sample_config true
                       mixed_table _ H1) E1)
          (eq_trans (rows_out_of_reach_are_untouched env sample_config true
                       mixed_table _ H2) E2)))).
Defined.

Lemma nothing_open_nothing_done_witness :
  let env := sample_env (λ _ _, true) (λ _ _, true) in
  let t : Table := {[ ("111111111111", "AKIADONE") := done_row ]} in
  env_setup_ok env = true ∧
  (∀ a, a ∈ (remediation_accounts sample_config).*1 → env_read_ok env a = true) ∧
  (∀ a, a ∈ (remediation_accounts sample_config).*1 →
        get_account_open_issues t a = []) ∧
  main env sample_config true t = mkWorld t [].
Proof.
  intros env t.
  assert (H2 : ∀ a, a ∈ (remediation_accounts sample_config).*1 →
                    env_read_ok env a = true) by (intros a _; reflexivity).
  assert (H3 : ∀ a, a ∈ (remediation_accounts sample_config).*1 →
                    get_account_open_issues t a = []).
  { intros a Ha. simpl in Ha.
    apply elem_of_cons in Ha as [->|Ha]; [vm_compute; reflexivity|].
    apply elem_of_cons in Ha as [->|Ha]; [vm_compute; reflexivity|].
    by apply elem_of_nil in Ha. }
  exact (conj eq_refl (conj H2 (conj H3
    (nothing_open_nothing_done env sample_config true t eq_refl H2 H3)))).
Defined.

Lemma remediation_failure_does_not_stop_the_loop_witness :
  let env := scripted_env (Some (18 * day)) true AccountRaises true true true in
  let w : State := mkWorld overdue_table [] in
  let w1 : State :=
    mkWorld overdue_table
      [LogException (ErrorWhileDisabling "AKIAOLD" "alice" "prod" "111111111111")] in
  not_excluded sample_config "111111111111" overdue_issue ∧
  env_parse_date env (slack_notified_date (timestamps overdue_issue))
    = Some (18 * day) ∧
  bool_decide (remediation_retention_period sample_config
               - days (now sample_config - timestamp_as_datetime overdue_issue)
               ∈ remediation_warning_days sample_config)
  && bool_decide (days (now sample_config - 18 * day) > 0) = false ∧
  process_issue env sample_config true "111111111111" "prod" overdue_issue w
    = Done tt w1 ∧
  process_issues env sample_config true "111111111111" "prod"
                 [overdue_issue; young_issue] w
    = process_issues env sample_config true "111111111111" "prod" [young_issue] w1.
Proof.
  intros env w w1.
  assert (H3 : bool_decide (remediation_retention_period sample_config
                 - days (now sample_config - timestamp_as_datetime overdue_issue)
                 ∈ remediation_warning_days sample_config)
               && bool_decide (days (now sample_config - 18 * day) > 0) = false)
    by (vm_compute; reflexivity).
  destruct (remediation_failure_does_not_stop_the_loop env sample_config true
              "111111111111" "prod" overdue_issue [young_issue] (18 * day) w
              overdue_not_excluded eq_refl H3) as (w' & Hone & Hall).
  assert (E : process_issue env sample_config true "111111111111" "prod"
                overdue_issue w = Done tt w1) by reflexivity.
  assert (Ew : w' = w1) by congruence. subst w'.
  exact (conj overdue_not_excluded (conj eq_refl (conj H3 (conj Hone Hall)))).
Defined.

Lemma nothing_is_remediated_inside_the_retention_witness :
  let env := scripted_env (Some (18 * day)) true HasSession true true true in
  let w : State := mkWorld overdue_table [] in
  now sample_config - timestamp_as_datetime young_issue
    < remediation_retention_period sample_config * 86400 ∧
  ∃ l, trace (world_of (process_issue env sample_config true "111111111111"
                                      "prod" young_issue w))
         = trace w ++ l ∧
       Forall (λ e, is_remediation_effect e = false) l.
Proof.
  intros env w.
  assert (H1 : now sample_config - timestamp_as_datetime young_issue
               < remediation_retention_period sample_config * 86400)
    by (vm_compute; reflexivity).
  exact (conj H1
    (nothing_is_remediated_inside_the_retention env sample_config true
       "111111111111" "prod" young_issue w H1)).
Defined.

End IAM_proofs.
